(** * The skill system: registry, session-state reducers and the per-call
      tool filter

    A shallow embedding of [skill_system/core/state.py],
    [skill_system/core/base_skill.py], [skill_system/core/registry.py] and
    [skill_system/middleware/skill_middleware.py].

    - Python lists are [list]; skill names are [string].
    - Python integers are unbounded, hence [Z]; slices clamp their bounds the
      way CPython does.
    - A [dict] keeps insertion order, and the loader tools are enumerated in
      that order, so a dict is an association list with the update, delete and
      lookup rules of Python.
    - Exceptions are values of [exn]; a method that mutates the registry or
      writes to the logger is a function from the registry to an outcome, a
      final registry and the records it logged.

    Part I holds the definitions, Part II the lemmas about them, Part III the
    properties of the specification. *)

From stdpp Require Import base option list strings.

Local Open Scope Z_scope.
Local Open Scope nat_scope.

(** * Part I: the program *)

(** ** Python list slices *)

Module Slice.
Section slice.
Context {A : Type}.

(** A slice bound [i] against a list of length [n]: a negative bound counts
    from the end, and the outcome is clamped to [0 .. n]. *)
Definition bound (n : nat) (i : Z) : nat :=
  Z.to_nat (if (i <? 0)%Z then Z.max (i + Z.of_nat n) 0
            else Z.min i (Z.of_nat n)).

(** [l[:stop]] *)
Definition upto (l : list A) (stop : Z) : list A :=
  take (bound (length l) stop) l.

(** [l[start:]] *)
Definition from (l : list A) (start : Z) : list A :=
  drop (bound (length l) start) l.

End slice.
End Slice.

(** ** Session state: [skill_system/core/state.py] *)

Module State.

(** The comprehension [[s for s in new if s not in current]]. *)
Definition new_unique (current new : list string) : list string :=
  filter (λ s, s ∉ current) new.

(** Replace mode. *)
Definition skill_list_reducer (current new : list string) : list string :=
  new.

(** Accumulate mode; [not current] holds of the empty list only. *)
Definition skill_list_accumulator (current new : list string) : list string :=
  match current with
  | [] => new
  | _ :: _ => current ++ new_unique current new
  end.

(** FIFO mode: the factory takes [max_skills] and returns the reducer. *)
Definition skill_list_fifo (max_skills : Z) (current new : list string)
  : list string :=
  match current with
  | [] => Slice.upto new max_skills
  | _ :: _ => Slice.from (current ++ new_unique current new) (- max_skills)
  end.

(** The last [k] entries of a list. *)
Definition last_entries {A} (k : nat) (l : list A) : list A :=
  drop (length l - k) l.

(** The state of a conversation that starts with no skill loaded and whose
    reducer is applied to the given updates, one after the other. *)
Definition run (reducer : list string → list string → list string)
    (updates : list (list string)) : list string :=
  foldl reducer [] updates.

(** Loading the given names one at a time. *)
Definition load_each (reducer : list string → list string → list string)
    (names : list string) : list string :=
  run reducer ((λ n, [n]) <$> names).

End State.

(** ** Exceptions, results and loops *)

(** The exceptions this code raises or lets through; all of them derive from
    Python's [Exception], which is what [except Exception] catches. *)
Inductive exn : Type :=
| ValueError (msg : string)
| KeyError (key : string)
| AttributeError (msg : string)
| NotADirectoryError (path : string)
| SkillNotFoundError (skill_name : string)
| SkillLoadError (skill_name reason : string)
| OtherException (msg : string).

Inductive result (A : Type) : Type :=
| Ok (a : A)
| Raise (e : exn).
Arguments Ok {A} a.
Arguments Raise {A} e.

#[global] Instance result_ret : MRet result := @Ok.
#[global] Instance result_bind : MBind result := λ A B f m,
  match m with Ok a => f a | Raise e => Raise e end.

(** [for x in xs: body], threading the variables the body assigns. *)
Fixpoint for_in {F : Type → Type} `{!MBind F, !MRet F} {A S : Type}
    (xs : list A) (body : A → S → F S) (s : S) : F S :=
  match xs with
  | [] => mret s
  | x :: xs' => s' ← body x s; for_in xs' body s'
  end.

(** ** Insertion-ordered dictionaries with string keys *)

Module Dict.
Section dict.
Context {V : Type}.

(** [d.get(k)] *)
Fixpoint get (d : list (string * V)) (k : string) : option V :=
  match d with
  | [] => None
  | (k', v) :: d' => if decide (k = k') then Some v else get d' k
  end.

(** [k in d] *)
Definition contains (d : list (string * V)) (k : string) : bool :=
  match get d k with Some _ => true | None => false end.

(** [d[k]] *)
Definition getitem (d : list (string * V)) (k : string) : result V :=
  match get d k with Some v => Ok v | None => Raise (KeyError k) end.

(** [d[k] = v]: an existing key keeps its place, a new one goes last. *)
Fixpoint setitem (d : list (string * V)) (k : string) (v : V)
  : list (string * V) :=
  match d with
  | [] => [(k, v)]
  | (k', v') :: d' =>
      if decide (k = k') then (k', v) :: d' else (k', v') :: setitem d' k v
  end.

(** [del d[k]], for a key that is present. *)
Fixpoint delitem (d : list (string * V)) (k : string) : list (string * V) :=
  match d with
  | [] => []
  | (k', v') :: d' =>
      if decide (k = k') then d' else (k', v') :: delitem d' k
  end.

Definition keys (d : list (string * V)) : list string := d.*1.
Definition values (d : list (string * V)) : list V := d.*2.
Definition len (d : list (string * V)) : nat := length d.

(** What every Python dict satisfies: a key occurs once. *)
Definition wf (d : list (string * V)) : Prop := NoDup (keys d).

End dict.
End Dict.

(** ** Skills: [skill_system/core/base_skill.py] *)

Record SkillMetadata : Type := {
  name : string;
  description : string;
  version : string;
  tags : list string;
  visibility : string;
  dependencies : list string;
  required_permissions : list string;
  author : option string;
  enabled : bool;
}.

Record BaseTool : Type := {
  tool_name : string;
  tool_description : string;
}.

(** A reference the source types as [BaseTool]: a tool, or [None]. *)
Inductive tool_ref : Type :=
| PyNone
| Tool (t : BaseTool).

(** [t.name] *)
Definition name_of (t : tool_ref) : result string :=
  match t with
  | Tool t => Ok (tool_name t)
  | PyNone => Raise (AttributeError "'NoneType' object has no attribute 'name'")
  end.

(** An instance of a concrete subclass of [BaseSkill]: what its three
    abstract members return. *)
Record BaseSkill : Type := {
  skill_dir : option string;
  metadata : SkillMetadata;
  get_tools : list tool_ref;
  get_loader_tool : tool_ref;
}.

(** Truth values of the objects [validate] tests with [not]. *)
Definition str_truth (s : string) : bool :=
  match s with EmptyString => false | String _ _ => true end.
Definition list_truth {A} (l : list A) : bool :=
  match l with [] => false | _ :: _ => true end.
Definition tool_truth (t : tool_ref) : bool :=
  match t with PyNone => false | Tool _ => true end.

Definition validate (self : BaseSkill) : result bool :=
  if negb (str_truth (name (metadata self))) then
    Raise (ValueError "Skill name cannot be empty")
  else if negb (str_truth (description (metadata self))) then
    Raise (ValueError "Skill description cannot be empty")
  else if negb (list_truth (get_tools self)) then
    Raise (ValueError "Skill must provide at least one tool")
  else if negb (tool_truth (get_loader_tool self)) then
    Raise (ValueError "Skill must provide a loader tool")
  else Ok true.

(** ** The registry: [skill_system/core/registry.py] *)

(** What the module logger is asked to write, one constructor per call. *)
Inductive log_record : Type :=
| WarnOverwriting (skill_name : string)
| InfoRegistered (skill_name skill_version : string)
| InfoUnregistered (skill_name : string)
| WarnDirectoryNotFound (skills_dir : string)
| ErrorFailedToLoad (skill_path : string) (e : exn)
| InfoLoaded (loaded_count : nat) (skills_dir : string)
| InfoSkillsLoaded (is_async : bool) (skills_loaded : list string)
| InfoFilteredTools (is_async : bool) (count : nat) (names : list string).

Record SkillRegistry : Type := {
  _skills : list (string * BaseSkill);
  _metadata_cache : list (string * SkillMetadata);
}.

(** [SkillRegistry()] *)
Definition new_registry : SkillRegistry :=
  {| _skills := []; _metadata_cache := [] |}.

(** A method that may mutate [self], log and raise: from the registry it is
    called on to its outcome, the registry it leaves and what it logged. *)
Definition method (A : Type) : Type :=
  SkillRegistry → result A * SkillRegistry * list log_record.

#[global] Instance method_ret : MRet method := λ A a self, (Ok a, self, []).
#[global] Instance method_bind : MBind method := λ A B f m self,
  match m self with
  | (Ok a, self', logged) =>
      let '(r, self'', logged') := f a self' in (r, self'', logged ++ logged')
  | (Raise e, self', logged) => (Raise e, self', logged)
  end.

(** A call that raises or returns without touching the registry. *)
Definition pure {A} (r : result A) : method A := λ self, (r, self, []).
Definition logger (record : log_record) : method () :=
  λ self, (Ok (), self, [record]).
Definition read : method SkillRegistry := λ self, (Ok self, self, []).
Definition write (self' : SkillRegistry) : method () :=
  λ _, (Ok (), self', []).

(** [try: body / except Exception as e: handler e] *)
Definition try_except {A} (body : method A) (handler : exn → method A)
  : method A := λ self,
  match body self with
  | (Ok a, self', logged) => (Ok a, self', logged)
  | (Raise e, self', logged) =>
      let '(r, self'', logged') := handler e self' in
      (r, self'', logged ++ logged')
  end.

Definition register (skill : BaseSkill) : method () :=
  _ ← pure (validate skill);
  let name := name (metadata skill) in
  self ← read;
  (if Dict.contains (_skills self) name
   then logger (WarnOverwriting name) else mret ());;
  self ← read;
  write {| _skills := Dict.setitem (_skills self) name skill;
           _metadata_cache := _metadata_cache self |};;
  self ← read;
  write {| _skills := _skills self;
           _metadata_cache :=
             Dict.setitem (_metadata_cache self) name (metadata skill) |};;
  logger (InfoRegistered name (version (metadata skill))).

Definition unregister (skill_name : string) : method () :=
  self ← read;
  if Dict.contains (_skills self) skill_name then
    write {| _skills := Dict.delitem (_skills self) skill_name;
             _metadata_cache := _metadata_cache self |};;
    self ← read;
    _ ← pure (if Dict.contains (_metadata_cache self) skill_name
              then Ok () else Raise (KeyError skill_name));
    write {| _skills := _skills self;
             _metadata_cache :=
               Dict.delitem (_metadata_cache self) skill_name |};;
    logger (InfoUnregistered skill_name)
  else mret ().

Definition get (self : SkillRegistry) (skill_name : string)
  : result BaseSkill :=
  if negb (Dict.contains (_skills self) skill_name) then
    Raise (SkillNotFoundError skill_name)
  else Dict.getitem (_skills self) skill_name.

Definition get_metadata (self : SkillRegistry) (skill_name : string)
  : result SkillMetadata :=
  if negb (Dict.contains (_metadata_cache self) skill_name) then
    Raise (SkillNotFoundError skill_name)
  else Dict.getitem (_metadata_cache self) skill_name.

Definition list_skills (self : SkillRegistry)
    (filter_fn : option (SkillMetadata → bool)) : list string :=
  match filter_fn with
  | None => Dict.keys (_skills self)
  | Some filter_fn =>
      (filter (λ item, filter_fn item.2 = true) (_metadata_cache self)).*1
  end.

Definition get_all_loader_tools (self : SkillRegistry)
    (filter_fn : option (SkillMetadata → bool)) : result (list tool_ref) :=
  let skill_names := list_skills self filter_fn in
  for_in skill_names (λ name loaders,
    skill ← Dict.getitem (_skills self) name;
    if enabled (metadata skill)
    then mret (loaders ++ [get_loader_tool skill])
    else mret loaders) [].

Definition get_all_tools (self : SkillRegistry)
    (filter_fn : option (SkillMetadata → bool)) : result (list tool_ref) :=
  let skill_names := list_skills self filter_fn in
  for_in skill_names (λ name all_tools,
    skill ← Dict.getitem (_skills self) name;
    if enabled (metadata skill)
    then mret ((all_tools ++ [get_loader_tool skill]) ++ get_tools skill)
    else mret all_tools) [].

Definition get_tools_for_skills (self : SkillRegistry)
    (skill_names : list string) : result (list tool_ref) :=
  tools ← get_all_loader_tools self None;
  for_in skill_names (λ name tools,
    if Dict.contains (_skills self) name then
      skill ← Dict.getitem (_skills self) name;
      if enabled (metadata skill)
      then mret (tools ++ get_tools skill)
      else mret tools
    else mret tools) tools.

(** [len(registry)] and [name in registry] *)
Definition len (self : SkillRegistry) : nat := Dict.len (_skills self).
Definition contains (self : SkillRegistry) (skill_name : string) : bool :=
  Dict.contains (_skills self) skill_name.

(** *** Discovery *)

(** What [create_skill(skill_dir)] hands back. *)
Inductive py_object : Type :=
| SkillObject (skill : BaseSkill)
| OtherObject.

(** A module once its body has run: whether it defines [create_skill], and
    if so what calling it on the skill directory does. *)
Record py_module : Type := {
  create_skill : option (result py_object);
}.

(** A [.py] file: whether [spec_from_file_location] yields a spec with a
    loader, and what [exec_module] does. *)
Record py_file : Type := {
  has_spec : bool;
  exec_module : result py_module;
}.

(** An entry of the skills directory, with the files directly under it when
    it is a directory. *)
Record dir_entry : Type := {
  entry_name : string;
  is_dir : bool;
  files : list (string * py_file);
}.

(** What a [Path] points at. *)
Inductive path : Type :=
| Missing (p : string)
| RegularFile (p : string)
| Directory (p : string) (entries : list dir_entry).

Definition path_str (p : path) : string :=
  match p with Missing s | RegularFile s | Directory s _ => s end.

Definition exists_ (p : path) : bool :=
  match p with Missing _ => false | _ => true end.

(** [skills_dir.iterdir()] *)
Definition iterdir (p : path) : result (list dir_entry) :=
  match p with
  | Directory _ entries => Ok entries
  | RegularFile s => Raise (NotADirectoryError s)
  | Missing s => Raise (OtherException "FileNotFoundError")
  end.

Definition _load_skill_from_file (skill_file : py_file)
    (skill_dir : dir_entry) : result BaseSkill :=
  if negb (has_spec skill_file) then
    Raise (SkillLoadError (entry_name skill_dir) "Failed to load module spec")
  else
    module ← exec_module skill_file;
    match create_skill module with
    | None =>
        Raise (SkillLoadError (entry_name skill_dir)
                 "Module must define create_skill() function")
    | Some call =>
        skill ← call;
        match skill with
        | SkillObject skill => Ok skill
        | OtherObject =>
            Raise (SkillLoadError (entry_name skill_dir)
                     "create_skill() must return BaseSkill instance")
        end
    end.

Definition discover_and_load (skills_dir : path) (module_name : string)
  : method nat :=
  if negb (exists_ skills_dir) then
    logger (WarnDirectoryNotFound (path_str skills_dir));;
    mret 0
  else
    entries ← pure (iterdir skills_dir);
    loaded_count ← for_in entries (λ skill_path loaded_count,
      if negb (is_dir skill_path) then mret loaded_count
      else
        match Dict.get (files skill_path) (module_name +:+ ".py") with
        | None => mret loaded_count
        | Some skill_file =>
            try_except
              (skill ← pure (_load_skill_from_file skill_file skill_path);
               register skill;;
               mret (loaded_count + 1))
              (λ e,
               logger (ErrorFailedToLoad (entry_name skill_path) e);;
               mret loaded_count)
        end) 0;
    logger (InfoLoaded loaded_count (path_str skills_dir));;
    mret loaded_count.

(** ** The middleware: [skill_system/middleware/skill_middleware.py] *)

(** [request.state]: absent, [None], a dict, or an object with attributes;
    in the last two [skills_loaded] is the entry or attribute of that name,
    when there is one. *)
Inductive request_state : Type :=
| NoStateAttribute
| StateNone
| StateDict (skills_loaded : option (list string))
| StateObject (skills_loaded : option (list string)).

Record ModelRequest : Type := {
  state : request_state;
  tools : list tool_ref;
  messages : list string;
}.

(** [request.override(tools=...)] *)
Definition override (request : ModelRequest) (tools' : list tool_ref)
  : ModelRequest :=
  {| state := state request; tools := tools'; messages := messages request |}.

Record SkillMiddleware : Type := {
  registry : SkillRegistry;
  verbose : bool;
  filter_fn : option (tool_ref → bool);
}.

Definition _get_filtered_tools (self : SkillMiddleware)
    (skills_loaded : list string) : result (list tool_ref) :=
  tools ← get_tools_for_skills (registry self) skills_loaded;
  mret tools.

(** One pass through an entry point: the records logged, then the handler's
    outcome, or the exception raised before the handler is reached. The
    handler is the rest of the chain; awaiting it yields what it returns. *)
Section entry_points.
Context {ModelResponse : Type}.

Definition wrap_model_call (self : SkillMiddleware) (request : ModelRequest)
    (handler : ModelRequest → result ModelResponse)
  : list log_record * result ModelResponse :=
  let skills_loaded :=
    match state request with
    | NoStateAttribute | StateNone => []
    | StateDict entry => default [] entry
    | StateObject attribute => default [] attribute
    end in
  match _get_filtered_tools self skills_loaded with
  | Raise e => ([], Raise e)
  | Ok relevant_tools =>
      if verbose self then
        match mapM name_of relevant_tools with
        | Raise e => ([InfoSkillsLoaded false skills_loaded], Raise e)
        | Ok names =>
            let filtered_request := override request relevant_tools in
            ([InfoSkillsLoaded false skills_loaded;
              InfoFilteredTools false (length relevant_tools) names],
             handler filtered_request)
        end
      else
        let filtered_request := override request relevant_tools in
        ([], handler filtered_request)
  end.

Definition awrap_model_call (self : SkillMiddleware) (request : ModelRequest)
    (handler : ModelRequest → result ModelResponse)
  : list log_record * result ModelResponse :=
  let skills_loaded :=
    match state request with
    | NoStateAttribute | StateNone => []
    | StateDict entry => default [] entry
    | StateObject attribute => default [] attribute
    end in
  match _get_filtered_tools self skills_loaded with
  | Raise e => ([], Raise e)
  | Ok relevant_tools =>
      if verbose self then
        match mapM name_of relevant_tools with
        | Raise e => ([InfoSkillsLoaded true skills_loaded], Raise e)
        | Ok names =>
            let filtered_request := override request relevant_tools in
            ([InfoSkillsLoaded true skills_loaded;
              InfoFilteredTools true (length relevant_tools) names],
             handler filtered_request)
        end
      else
        let filtered_request := override request relevant_tools in
        ([], handler filtered_request)
  end.

End entry_points.

(** The names a request's state reports as loaded. *)
Definition skills_loaded_of (request : ModelRequest) : list string :=
  match state request with
  | StateDict (Some l) | StateObject (Some l) => l
  | _ => []
  end.

(** ** Notions the properties are stated with *)

(** What a method call yields: its outcome, the registry it leaves and the
    records it logged. *)
Definition outcome {A} (x : result A * SkillRegistry * list log_record)
  : result A := x.1.1.
Definition registry_after {A} (x : result A * SkillRegistry * list log_record)
  : SkillRegistry := x.1.2.
Definition logged {A} (x : result A * SkillRegistry * list log_record)
  : list log_record := x.2.

(** A bundle with no name, no description, no action or no loader. *)
Definition malformed (skill : BaseSkill) : Prop :=
  name (metadata skill) = "" ∨ description (metadata skill) = "" ∨
  get_tools skill = [] ∨ get_loader_tool skill = PyNone.

(** The loader tools of the enabled registered bundles, in registration
    order. *)
Definition enabled_loaders (self : SkillRegistry) : list tool_ref :=
  get_loader_tool <$>
    filter (λ skill, enabled (metadata skill) = true)
      (Dict.values (_skills self)).

(** The action tools a loaded name contributes: those of its bundle when the
    name is registered and the bundle enabled, none otherwise. *)
Definition tools_if_loaded (self : SkillRegistry) (skill_name : string)
  : list tool_ref :=
  match Dict.get (_skills self) skill_name with
  | Some skill => if enabled (metadata skill) then get_tools skill else []
  | None => []
  end.

(** The registry a program holds after a sequence of calls on a fresh one,
    whether each call returned or raised. *)
Inductive call : Type :=
| CallRegister (skill : BaseSkill)
| CallUnregister (skill_name : string)
| CallDiscover (skills_dir : path) (module_name : string).

Definition perform (self : SkillRegistry) (c : call) : SkillRegistry :=
  match c with
  | CallRegister skill => registry_after (register skill self)
  | CallUnregister skill_name => registry_after (unregister skill_name self)
  | CallDiscover skills_dir module_name =>
      registry_after (discover_and_load skills_dir module_name self)
  end.

Definition after (calls : list call) : SkillRegistry :=
  foldl perform new_registry calls.

(** What discovery tries with one entry of the skills directory: nothing
    when the entry is no directory or lacks the module file, otherwise to
    load the bundle and have it pass the validation of [register]. *)
Definition attempt (module_name : string) (skill_path : dir_entry)
  : option (result BaseSkill) :=
  if is_dir skill_path then
    skill_file ← Dict.get (files skill_path) (module_name +:+ ".py");
    Some (skill ← _load_skill_from_file skill_file skill_path;
          _ ← validate skill;
          mret skill)
  else None.

(** The bundles discovery loads and registers, and the entries it fails on. *)
Definition loaded_skills (module_name : string) (entries : list dir_entry)
  : list BaseSkill :=
  omap (λ skill_path,
    match attempt module_name skill_path with
    | Some (Ok skill) => Some skill
    | _ => None
    end) entries.

Definition failures (module_name : string) (entries : list dir_entry)
  : list log_record :=
  omap (λ skill_path,
    match attempt module_name skill_path with
    | Some (Raise e) => Some (ErrorFailedToLoad (entry_name skill_path) e)
    | _ => None
    end) entries.

Definition is_error (record : log_record) : Prop :=
  match record with ErrorFailedToLoad _ _ => True | _ => False end.

#[global] Instance is_error_dec record : Decision (is_error record).
Proof. destruct record; simpl; apply _. Defined.

(** The registry a successful registration of [skill] leaves. *)
Definition with_skill (self : SkillRegistry) (skill : BaseSkill)
  : SkillRegistry :=
  {| _skills := Dict.setitem (_skills self) (name (metadata skill)) skill;
     _metadata_cache :=
       Dict.setitem (_metadata_cache self) (name (metadata skill))
         (metadata skill) |}.

(** Registering bundles one after the other. *)
Definition register_all (self : SkillRegistry) (skills : list BaseSkill)
  : SkillRegistry :=
  foldl (λ self skill, registry_after (register skill self)) self skills.

(** Every bundle is filed under the name its metadata gives. *)
Definition keyed_by_name (self : SkillRegistry) : Prop :=
  ∀ k skill, (k, skill) ∈ _skills self → name (metadata skill) = k.

(** ** Sample data *)

Module Sample.
Local Open Scope string_scope.

Definition tool (tool_name : string) : tool_ref :=
  Tool {| tool_name := tool_name; tool_description := "" |}.

Definition skill (name : string) (enabled : bool) (tools : list tool_ref)
    (loader : tool_ref) : BaseSkill :=
  {| skill_dir := None;
     metadata := {| name := name; description := "sample";
                    version := "1.0.0"; tags := []; visibility := "public";
                    dependencies := []; required_permissions := [];
                    author := None; enabled := enabled |};
     get_tools := tools;
     get_loader_tool := loader |}.

Definition A : BaseSkill := skill "A" true [tool "a1"; tool "a2"] (tool "loadA").
Definition A' : BaseSkill := skill "A" true [tool "a3"] (tool "loadA").
Definition B : BaseSkill := skill "B" false [tool "b1"] (tool "loadB").
Definition no_tools : BaseSkill := skill "C" true [] (tool "loadC").

(** A registry holding the enabled [A] and the disabled [B]. *)
Definition AB : SkillRegistry := after [CallRegister A; CallRegister B].

(** A module file whose [create_skill] returns the given object. *)
Definition file_of (object : py_object) : py_file :=
  {| has_spec := true;
     exec_module := Ok {| create_skill := Some (Ok object) |} |}.

Definition entry (entry_name : string) (skill_file : py_file) : dir_entry :=
  {| entry_name := entry_name; is_dir := true;
     files := [("skill.py", skill_file)] |}.

Definition good_entry : dir_entry := entry "a" (file_of (SkillObject A)).
Definition bad_entry : dir_entry := entry "c" (file_of (SkillObject no_tools)).

Definition request (loaded : list string) : ModelRequest :=
  {| state := StateDict (Some loaded); tools := []; messages := [] |}.

End Sample.

(** ** The rest of the registry: [search] *)

(** [needle in hay], for strings. *)
Fixpoint str_in (needle hay : string) : bool :=
  if String.prefix needle hay then true
  else match hay with
       | EmptyString => false
       | String _ hay' => str_in needle hay'
       end.

(** [any(tag in meta_tags for tag in tags)] *)
Definition any_tag_in (tags meta_tags : list string) : bool :=
  existsb (λ tag, bool_decide (tag ∈ meta_tags)) tags.

(** Truth values of the optional arguments of [search]. *)
Definition tags_truth (tags : option (list string)) : bool :=
  match tags with Some (_ :: _) => true | _ => false end.
Definition visibility_truth (visibility : option string) : bool :=
  match visibility with Some s => str_truth s | None => false end.

Section search.
(** [str.lower]; the embedding leaves it abstract. *)
Variable lower : string → string.

Definition search (self : SkillRegistry) (query : string)
    (tags' : option (list string)) (visibility' : option string)
  : list SkillMetadata :=
  foldl (λ results meta,
    if str_truth query
       && (negb (str_in (lower query) (lower (name meta)))
           && negb (str_in (lower query) (lower (description meta))))
    then results
    else if tags_truth tags'
            && negb (any_tag_in (default [] tags') (tags meta))
    then results
    else if visibility_truth visibility'
            && negb (bool_decide (Some (visibility meta) = visibility'))
    then results
    else results ++ [meta]) [] (Dict.values (_metadata_cache self)).

(** What [search] keeps, in the words of its comments: the query matches the
    name or the description, a requested tag is among the tags, and the
    visibility is the requested one; an empty or absent argument asks
    nothing. *)
Definition matches (query : string) (tags' : option (list string))
    (visibility' : option string) (meta : SkillMetadata) : Prop :=
  (query = "" ∨ str_in (lower query) (lower (name meta)) = true
   ∨ str_in (lower query) (lower (description meta)) = true) ∧
  (tags' = None ∨ tags' = Some []
   ∨ ∃ tag, tag ∈ default [] tags' ∧ tag ∈ tags meta) ∧
  (visibility' = None ∨ visibility' = Some ""
   ∨ visibility' = Some (visibility meta)).

End search.

(** The cache holds, key by key, the metadata of the registered bundles. *)
Definition cache_coherent (self : SkillRegistry) : Prop :=
  _metadata_cache self = prod_map id metadata <$> _skills self.

(** What the methods of the registry keep: a name is registered once, and
    the cache is coherent. *)
Definition well_built (self : SkillRegistry) : Prop :=
  Dict.wf (_skills self) ∧ cache_coherent self.

(** The registry [unregister] leaves when the name is registered. *)
Definition without_skill (self : SkillRegistry) (skill_name : string)
  : SkillRegistry :=
  {| _skills := Dict.delitem (_skills self) skill_name;
     _metadata_cache := Dict.delitem (_metadata_cache self) skill_name |}.

(** Exceptions and results can be compared. *)
#[global] Instance exn_eq_dec : EqDecision exn.
Proof. solve_decision. Defined.

#[global] Instance result_eq_dec {A} `{!EqDecision A} : EqDecision (result A).
Proof. solve_decision. Defined.

(** ** The simplified middleware:
       [skill_system/middleware/skill_middleware_simple.py] *)

Module Simple.

(** What this module's logger is asked to write. *)
Inductive log_record : Type :=
| WarnSimplified
| InfoSkillsLoaded (skills_loaded : list string)
| InfoAvailableTools (names : list string).

Record SimpleSkillMiddleware : Type := {
  registry : SkillRegistry;
  verbose : bool;
  filter_fn : option (tool_ref → bool);
}.

(** The records logged, then what is returned or raised. *)
Definition get_tools_for_state (self : SimpleSkillMiddleware)
    (skills_loaded : list string)
  : list log_record * result (list tool_ref) :=
  match get_tools_for_skills (registry self) skills_loaded with
  | Raise e => ([], Raise e)
  | Ok tools =>
      let tools :=
        match filter_fn self with
        | Some filter_fn => filter (λ t, filter_fn t = true) tools
        | None => tools
        end in
      if verbose self then
        match mapM name_of tools with
        | Raise e => ([InfoSkillsLoaded skills_loaded], Raise e)
        | Ok names =>
            ([InfoSkillsLoaded skills_loaded; InfoAvailableTools names],
             Ok tools)
        end
      else ([], Ok tools)
  end.

Definition create_skill_aware_tools (registry : SkillRegistry)
    (skills_loaded : option (list string)) : result (list tool_ref) :=
  let skills_loaded :=
    match skills_loaded with None => [] | Some names => names end in
  get_tools_for_skills registry skills_loaded.

(** The placeholder class of the same module, named [SkillMiddleware]
    there. *)
Record SkillMiddleware : Type := {
  placeholder_registry : SkillRegistry;
  placeholder_verbose : bool;
  placeholder_filter_fn : option (tool_ref → bool);
}.

(** Its constructor, with the warning it logs. *)
Definition new_placeholder (skill_registry : SkillRegistry) (verbose : bool)
    (filter_fn : option (tool_ref → bool))
  : list log_record * SkillMiddleware :=
  ([WarnSimplified],
   {| placeholder_registry := skill_registry;
      placeholder_verbose := verbose;
      placeholder_filter_fn := filter_fn |}).

Definition get_tools_for_skills (self : SkillMiddleware)
    (skills_loaded : list string)
  : list log_record * result (list tool_ref) :=
  match get_tools_for_skills (placeholder_registry self) skills_loaded with
  | Raise e => ([], Raise e)
  | Ok tools =>
      let tools :=
        match placeholder_filter_fn self with
        | Some filter_fn => filter (λ t, filter_fn t = true) tools
        | None => tools
        end in
      if placeholder_verbose self then
        match mapM name_of tools with
        | Raise e => ([InfoSkillsLoaded skills_loaded], Raise e)
        | Ok names =>
            ([InfoSkillsLoaded skills_loaded; InfoAvailableTools names],
             Ok tools)
        end
      else ([], Ok tools)
  end.

End Simple.

(** ** The subclasses of the middleware *)

(** [PermissionAwareSkillMiddleware]: the base object its constructor
    builds, with the attribute it adds. *)
Record PermissionAwareSkillMiddleware : Type := {
  permission_base : SkillMiddleware;
  user_permissions : list string;
}.

Definition new_permission_aware (skill_registry : SkillRegistry)
    (user_permissions : option (list string)) (verbose : bool)
  : PermissionAwareSkillMiddleware :=
  let permission_filter := λ tool : tool_ref, true in
  {| user_permissions := default [] user_permissions;
     permission_base := {| registry := skill_registry; verbose := verbose;
                           filter_fn := Some permission_filter |} |}.

(** [RateLimitedSkillMiddleware]: the base object and the call counts. *)
Record RateLimitedSkillMiddleware : Type := {
  rate_base : SkillMiddleware;
  call_counts : list (string * nat);
}.

Definition new_rate_limited (skill_registry : SkillRegistry) (verbose : bool)
  : RateLimitedSkillMiddleware :=
  {| rate_base := {| registry := skill_registry; verbose := verbose;
                     filter_fn := None |};
     call_counts := [] |}.

Section rate_limited.
Context {ModelResponse : Type}.

(** The overriding entry points: what the call yields, and the object
    after it. *)
Definition rate_limited_wrap_model_call (self : RateLimitedSkillMiddleware)
    (request : ModelRequest)
    (handler : ModelRequest → result ModelResponse)
  : list log_record * result ModelResponse * RateLimitedSkillMiddleware :=
  (wrap_model_call (rate_base self) request handler, self).

Definition rate_limited_awrap_model_call (self : RateLimitedSkillMiddleware)
    (request : ModelRequest)
    (handler : ModelRequest → result ModelResponse)
  : list log_record * result ModelResponse * RateLimitedSkillMiddleware :=
  (awrap_model_call (rate_base self) request handler, self).

End rate_limited.

(** ** Helpers: [skill_system/utils/helpers.py] *)

(** [(skill_path / file_name).exists()] *)
Definition child_exists (skill_path : path) (file_name : string) : bool :=
  match skill_path with
  | Directory _ entries => bool_decide (file_name ∈ entry_name <$> entries)
  | _ => false
  end.

Definition is_directory (skill_path : path) : bool :=
  match skill_path with Directory _ _ => true | _ => false end.

Definition validate_skill_structure (skill_path : path) : list string :=
  let issues := [] in
  if negb (exists_ skill_path) then
    issues ++ ["Directory does not exist: " +:+ path_str skill_path]
  else if negb (is_directory skill_path) then
    issues ++ ["Not a directory: " +:+ path_str skill_path]
  else
    let required_files := ["skill.py"] in
    let issues :=
      foldl (λ issues file_name,
        if negb (child_exists skill_path file_name)
        then issues ++ ["Missing required file: " +:+ file_name]
        else issues) issues required_files in
    let optional_files := ["instructions.md"; "config.yaml"] in
    let issues :=
      foldl (λ issues file_name,
        if negb (child_exists skill_path file_name)
        then issues ++ ["Warning: Optional file not found: " +:+ file_name]
        else issues) issues optional_files in
    issues.

(** ** Configuration: [skill_system/config/settings.py] *)

Module Config.
Section config.

(** Floats are carried, never computed with. *)
Variable float : Type.
(** [0.7] *)
Variable default_temperature : float.
(** The normal form [Path] keeps of the string it is built from. *)
Variable normalize : string → string.

(** The values a field may hold; a dataclass checks no type. A [Path] is
    the string [str] gives for it. *)
#[local] Unset Elimination Schemes.
Inductive value : Type :=
| VNone
| VBool (b : bool)
| VInt (n : Z)
| VFloat (x : float)
| VStr (s : string)
| VPath (s : string)
| VList (items : list value)
| VDict (items : list (string * value)).
#[local] Set Elimination Schemes.

(** [str] of the values above that are neither strings nor paths. *)
Variable show : value → string.

Definition str (v : value) : string :=
  match v with
  | VStr s | VPath s => s
  | _ => show v
  end.

Record SkillSystemConfig : Type := {
  skills_dir : value;
  state_mode : value;
  max_concurrent_skills : value;
  verbose : value;
  log_level : value;
  default_model : value;
  temperature : value;
  max_tokens : value;
  middleware_enabled : value;
  auto_discover : value;
  skill_module_name : value;
  filter_by_visibility : value;
  allowed_visibilities : value;
  user_permissions : value;
  custom_config : value;
}.

Definition field_names : list string :=
  ["skills_dir"; "state_mode"; "max_concurrent_skills"; "verbose";
   "log_level"; "default_model"; "temperature"; "max_tokens";
   "middleware_enabled"; "auto_discover"; "skill_module_name";
   "filter_by_visibility"; "allowed_visibilities"; "user_permissions";
   "custom_config"].

Definition valid_modes : list string := ["replace"; "accumulate"; "fifo"].

(** [state_mode in valid_modes] *)
Definition in_valid_modes (v : value) : bool :=
  match v with
  | VStr s => bool_decide (s ∈ valid_modes)
  | _ => false
  end.

Definition __post_init__ (self : SkillSystemConfig)
  : result SkillSystemConfig :=
  skills_dir' ←
    match skills_dir self with
    | VPath s => Ok (VPath s)
    | VStr s => Ok (VPath (normalize s))
    | _ => Raise (OtherException "TypeError: expected str or os.PathLike")
    end;
  if negb (in_valid_modes (state_mode self)) then
    Raise (ValueError ("Invalid state_mode: " +:+ str (state_mode self)
                       +:+ ". Must be one of ['replace', 'accumulate', 'fifo']"))
  else
    Ok {| skills_dir := skills_dir';
          state_mode := state_mode self;
          max_concurrent_skills := max_concurrent_skills self;
          verbose := verbose self;
          log_level := log_level self;
          default_model := default_model self;
          temperature := temperature self;
          max_tokens := max_tokens self;
          middleware_enabled := middleware_enabled self;
          auto_discover := auto_discover self;
          skill_module_name := skill_module_name self;
          filter_by_visibility := filter_by_visibility self;
          allowed_visibilities := allowed_visibilities self;
          user_permissions := user_permissions self;
          custom_config := custom_config self |}.

(** The constructor, called with keywords: one that names no field is a
    [TypeError]; a field with no keyword takes its default. *)
Definition new (kwargs : list (string * value)) : result SkillSystemConfig :=
  match List.find (λ k, negb (bool_decide (k ∈ field_names)))
          (Dict.keys kwargs) with
  | Some k =>
      Raise (OtherException
               ("TypeError: unexpected keyword argument '" +:+ k +:+ "'"))
  | None =>
      let field k fallback := default fallback (Dict.get kwargs k) in
      __post_init__
        {| skills_dir := field "skills_dir" (VPath (normalize "./skills"));
           state_mode := field "state_mode" (VStr "replace");
           max_concurrent_skills := field "max_concurrent_skills" (VInt 3);
           verbose := field "verbose" (VBool false);
           log_level := field "log_level" (VStr "INFO");
           default_model := field "default_model" (VStr "gpt-4");
           temperature := field "temperature" (VFloat default_temperature);
           max_tokens := field "max_tokens" VNone;
           middleware_enabled := field "middleware_enabled" (VBool true);
           auto_discover := field "auto_discover" (VBool true);
           skill_module_name := field "skill_module_name" (VStr "skill");
           filter_by_visibility := field "filter_by_visibility" (VBool true);
           allowed_visibilities :=
             field "allowed_visibilities" (VList [VStr "public"]);
           user_permissions := field "user_permissions" (VList []);
           custom_config := field "custom_config" (VDict []) |}
  end.

Definition to_dict (self : SkillSystemConfig) : list (string * value) :=
  [("skills_dir", VStr (str (skills_dir self)));
   ("state_mode", state_mode self);
   ("max_concurrent_skills", max_concurrent_skills self);
   ("verbose", verbose self);
   ("log_level", log_level self);
   ("default_model", default_model self);
   ("temperature", temperature self);
   ("max_tokens", max_tokens self);
   ("middleware_enabled", middleware_enabled self);
   ("auto_discover", auto_discover self);
   ("skill_module_name", skill_module_name self);
   ("filter_by_visibility", filter_by_visibility self);
   ("allowed_visibilities", allowed_visibilities self);
   ("user_permissions", user_permissions self);
   ("custom_config", custom_config self)].

Definition from_dict (config_dict : list (string * value))
  : result SkillSystemConfig :=
  new config_dict.

End config.
End Config.

(** * Part II: lemmas *)

(** ** Slices *)

Section slice_lemmas.
Context {A : Type}.
Implicit Types l : list A.

Lemma bound_nonneg n i : (0 ≤ i)%Z → Slice.bound n i = Z.to_nat i `min` n.
Proof. unfold Slice.bound. destruct (Z.ltb_spec i 0); lia. Qed.

Lemma bound_neg n i : (i < 0)%Z → Slice.bound n i = n - Z.to_nat (- i).
Proof. unfold Slice.bound. destruct (Z.ltb_spec i 0); lia. Qed.

Lemma upto_sublist l stop : Slice.upto l stop `sublist_of` l.
Proof. apply sublist_take. Qed.

Lemma from_sublist l start : Slice.from l start `sublist_of` l.
Proof. apply sublist_drop. Qed.

(** For a count [k ≥ 0], [l[:k]] is the first [k] entries. *)
Lemma upto_take l k : (0 ≤ k)%Z → Slice.upto l k = take (Z.to_nat k) l.
Proof.
  intros Hk. unfold Slice.upto. rewrite bound_nonneg by done.
  destruct (decide (Z.to_nat k ≤ length l)) as [Hle|Hgt].
  - by rewrite Nat.min_l.
  - rewrite Nat.min_r by lia. rewrite !take_ge; [done|lia|lia].
Qed.

(** For a count [k ≥ 1], [l[-k:]] is the last [k] entries. *)
Lemma from_last_entries l k :
  (1 ≤ k)%Z → Slice.from l (- k) = State.last_entries (Z.to_nat k) l.
Proof.
  intros Hk. unfold Slice.from, State.last_entries.
  rewrite bound_neg by lia. by rewrite Z.opp_involutive.
Qed.

Lemma last_entries_short k l : length l ≤ k → State.last_entries k l = l.
Proof.
  intros Hle. unfold State.last_entries.
  by replace (length l - k) with 0 by lia.
Qed.

Lemma last_entries_length k l :
  length (State.last_entries k l) = k `min` length l.
Proof. unfold State.last_entries. rewrite length_drop. lia. Qed.

(** Trimming to the last [k] before appending one entry loses nothing that
    trimming afterwards keeps. *)
Lemma last_entries_snoc k l x :
  1 ≤ k →
  State.last_entries k (State.last_entries k l ++ [x])
  = State.last_entries k (l ++ [x]).
Proof.
  intros Hk. destruct (decide (length l ≤ k)) as [Hle|Hgt].
  - by rewrite (last_entries_short k l).
  - unfold State.last_entries at 1 3.
    rewrite !length_app, last_entries_length. simpl.
    replace (k `min` length l + 1 - k) with 1 by lia.
    unfold State.last_entries.
    rewrite !drop_app_le by (rewrite ?length_drop; lia).
    rewrite drop_drop. f_equal. f_equal. lia.
Qed.

End slice_lemmas.

(** ** Reducers *)

Section reducer_lemmas.
Import State.
Implicit Types current new names : list string.

Lemma new_unique_nil new : new_unique [] new = new.
Proof.
  unfold new_unique. induction new as [|s new IH]; [done|].
  rewrite filter_cons_True by apply not_elem_of_nil. by rewrite IH.
Qed.

Lemma new_unique_present current n :
  n ∈ current → new_unique current [n] = [].
Proof. intros Hin. unfold new_unique. by rewrite filter_singleton_False by tauto. Qed.

Lemma new_unique_absent current n :
  n ∉ current → new_unique current [n] = [n].
Proof. intros Hin. unfold new_unique. by rewrite filter_singleton_True. Qed.

(** The merge both accumulating policies start from. *)
Lemma merge_NoDup current new :
  NoDup current → NoDup new → NoDup (current ++ new_unique current new).
Proof.
  intros Hc Hn. apply NoDup_app. split_and!; [done| |by apply NoDup_filter].
  intros s Hs Hs'. by apply list_elem_of_filter in Hs' as [? _].
Qed.

Lemma accumulator_merge current new :
  skill_list_accumulator current new = current ++ new_unique current new.
Proof. destruct current; [by rewrite new_unique_nil|done]. Qed.

Lemma fifo_nonempty K current new :
  (1 ≤ K)%Z → current ≠ [] →
  skill_list_fifo K current new
  = last_entries (Z.to_nat K) (current ++ new_unique current new).
Proof.
  intros HK Hne. destruct current; [done|].
  unfold skill_list_fifo. by rewrite from_last_entries.
Qed.

Lemma fifo_empty K new :
  (0 ≤ K)%Z → skill_list_fifo K [] new = take (Z.to_nat K) new.
Proof. intros HK. simpl. by apply upto_take. Qed.

Lemma fifo_length K current new :
  (1 ≤ K)%Z → length (skill_list_fifo K current new) ≤ Z.to_nat K.
Proof.
  intros HK. destruct current as [|c current].
  - rewrite fifo_empty by lia. rewrite length_take. lia.
  - rewrite fifo_nonempty by done. rewrite last_entries_length. lia.
Qed.

Lemma run_snoc reducer updates new :
  run reducer (updates ++ [new]) = reducer (run reducer updates) new.
Proof. unfold run. by rewrite foldl_snoc. Qed.

Lemma load_each_snoc reducer names n :
  load_each reducer (names ++ [n]) = reducer (load_each reducer names) [n].
Proof. unfold load_each. rewrite fmap_app. apply run_snoc. Qed.

Lemma run_fifo_length K updates :
  (1 ≤ K)%Z → length (run (skill_list_fifo K) updates) ≤ Z.to_nat K.
Proof.
  intros HK. induction updates as [|new updates _] using rev_ind.
  - simpl. lia.
  - rewrite run_snoc. by apply fifo_length.
Qed.

Lemma load_each_accumulator names :
  NoDup names → load_each skill_list_accumulator names = names.
Proof.
  induction names as [|n names IH] using rev_ind; [done|].
  intros [Hnd [Hfresh _]]%NoDup_app.
  rewrite load_each_snoc, IH, accumulator_merge by done.
  rewrite new_unique_absent; [done|].
  intros Hin. apply (Hfresh n Hin). by apply list_elem_of_singleton.
Qed.

Lemma load_each_fifo K names :
  (1 ≤ K)%Z → NoDup names →
  load_each (skill_list_fifo K) names = last_entries (Z.to_nat K) names.
Proof.
  intros HK. induction names as [|n names IH] using rev_ind; [done|].
  intros [Hnd [Hfresh _]]%NoDup_app.
  rewrite load_each_snoc, IH by done.
  assert (n ∉ names) as Hn.
  { intros Hin. apply (Hfresh n Hin). by apply list_elem_of_singleton. }
  destruct names as [|m names].
  - rewrite fifo_empty by lia. unfold last_entries. simpl.
    replace (1 - Z.to_nat K) with 0 by lia.
    by rewrite take_ge by (simpl; lia).
  - rewrite fifo_nonempty; [|done|].
    + rewrite new_unique_absent.
      * apply last_entries_snoc. lia.
      * intros Hin. apply Hn. eapply elem_of_sublist; [done|].
        apply sublist_drop.
    + intros Hnil. apply (f_equal length) in Hnil.
      rewrite last_entries_length in Hnil. simpl in Hnil. lia.
Qed.

End reducer_lemmas.

(** ** Dictionaries *)

Section dict_lemmas.
Context {V : Type}.
Implicit Types (d : list (string * V)) (k : string) (v : V).

Lemma get_Some_elem d k v : Dict.get d k = Some v → (k, v) ∈ d.
Proof.
  induction d as [|[k' v'] d IH]; simpl; [done|].
  case_decide as Hk; intros Hget.
  - injection Hget as ->. subst k'. apply list_elem_of_here.
  - apply list_elem_of_further. by apply IH.
Qed.

Lemma get_key d k : k ∈ Dict.keys d → is_Some (Dict.get d k).
Proof.
  unfold Dict.keys. induction d as [|[k' v'] d IH]; simpl.
  - by intros ?%elem_of_nil.
  - intros Hin. case_decide as Hk; [by eexists|].
    apply IH. apply elem_of_cons in Hin as [?|?]; [done|done].
Qed.

Lemma get_None_key d k : Dict.get d k = None → k ∉ Dict.keys d.
Proof.
  intros Hget Hin. apply get_key in Hin as [v Hv]. congruence.
Qed.

(** In a well-formed dict an item is found under its key. *)
Lemma get_elem d k v : Dict.wf d → (k, v) ∈ d → Dict.get d k = Some v.
Proof.
  unfold Dict.wf, Dict.keys. induction d as [|[k' v'] d IH]; simpl.
  - by intros _ ?%elem_of_nil.
  - intros [Hfresh Hnd]%NoDup_cons [Heq|Hin]%elem_of_cons.
    + injection Heq as -> ->. by rewrite decide_True.
    + rewrite decide_False; [by apply IH|].
      intros ->. apply Hfresh.
      by apply (list_elem_of_fmap_2 fst) in Hin.
Qed.

Lemma contains_get d k : Dict.contains d k = true ↔ is_Some (Dict.get d k).
Proof.
  unfold Dict.contains.
  destruct (Dict.get d k); split; intros H;
    first [done | by eexists | by destruct H].
Qed.

Lemma contains_false d k : Dict.contains d k = false ↔ Dict.get d k = None.
Proof. unfold Dict.contains. by destruct (Dict.get d k). Qed.

Lemma get_setitem d k v : Dict.get (Dict.setitem d k v) k = Some v.
Proof.
  induction d as [|[k' v'] d IH]; simpl.
  - by rewrite decide_True.
  - case_decide as Hk; simpl.
    + subst k'. by rewrite decide_True.
    + by rewrite decide_False.
Qed.

Lemma get_setitem_ne d k k' v :
  k ≠ k' → Dict.get (Dict.setitem d k v) k' = Dict.get d k'.
Proof.
  intros Hne. induction d as [|[k0 v0] d IH]; simpl.
  - by rewrite decide_False.
  - case_decide as Hk; simpl.
    + subst k0. by rewrite !decide_False.
    + by rewrite IH.
Qed.

(** Assigning to a key that is present keeps the keys, in their order. *)
Lemma keys_setitem_present d k v :
  Dict.contains d k = true → Dict.keys (Dict.setitem d k v) = Dict.keys d.
Proof.
  unfold Dict.keys, Dict.contains.
  induction d as [|[k' v'] d IH]; simpl; [done|].
  case_decide as Hk; simpl; [done|].
  intros Hc. f_equal. by apply IH.
Qed.

(** Assigning to a new key puts it last. *)
Lemma keys_setitem_absent d k v :
  Dict.contains d k = false →
  Dict.keys (Dict.setitem d k v) = Dict.keys d ++ [k].
Proof.
  unfold Dict.keys, Dict.contains.
  induction d as [|[k' v'] d IH]; simpl; [done|].
  case_decide as Hk; simpl; [done|].
  intros Hc. f_equal. by apply IH.
Qed.

Lemma len_setitem_present d k v :
  Dict.contains d k = true → Dict.len (Dict.setitem d k v) = Dict.len d.
Proof.
  intros Hc. apply (keys_setitem_present d k v) in Hc.
  apply (f_equal length) in Hc. unfold Dict.keys in Hc.
  by rewrite !length_fmap in Hc.
Qed.

Lemma wf_setitem d k v : Dict.wf d → Dict.wf (Dict.setitem d k v).
Proof.
  unfold Dict.wf. intros Hwf.
  destruct (Dict.contains d k) eqn:Hc.
  - by rewrite keys_setitem_present.
  - rewrite keys_setitem_absent by done.
    apply NoDup_app. split_and!; [done| |apply NoDup_singleton].
    intros k' Hin ->%list_elem_of_singleton.
    by apply contains_false, get_None_key in Hc.
Qed.

Lemma elem_setitem d k v k' v' :
  (k', v') ∈ Dict.setitem d k v → (k', v') ∈ d ∨ (k' = k ∧ v' = v).
Proof.
  induction d as [|[k0 v0] d IH]; simpl.
  - intros Heq%list_elem_of_singleton. injection Heq as -> ->. by right.
  - case_decide as Hk.
    + intros [Heq|Hin]%elem_of_cons.
      * injection Heq as -> ->. by right.
      * left. by apply list_elem_of_further.
    + intros [Heq|Hin]%elem_of_cons.
      * left. rewrite Heq. apply list_elem_of_here.
      * destruct (IH Hin) as [?|?]; [left|by right].
        by apply list_elem_of_further.
Qed.

Lemma elem_delitem d k k' v' : (k', v') ∈ Dict.delitem d k → (k', v') ∈ d.
Proof.
  induction d as [|[k0 v0] d IH]; simpl; [done|].
  case_decide as Hk.
  - apply list_elem_of_further.
  - intros [Heq|Hin]%elem_of_cons.
    + rewrite Heq. apply list_elem_of_here.
    + apply list_elem_of_further. by apply IH.
Qed.

(** In a well-formed dict each key counts once. *)
Lemma wf_key_once d k :
  Dict.wf d → Dict.contains d k = true →
  length (filter (λ k', k' = k) (Dict.keys d)) = 1.
Proof.
  unfold Dict.wf, Dict.keys, Dict.contains.
  induction d as [|[k' v'] d IH]; simpl; [done|].
  intros [Hfresh Hnd]%NoDup_cons. case_decide as Hk.
  - intros _. subst k'. rewrite filter_cons_True by done. simpl. f_equal.
    apply length_zero_iff_nil, elem_of_nil_inv.
    intros x [-> Hx]%list_elem_of_filter. done.
  - intros Hc. rewrite filter_cons_False by done. by apply IH.
Qed.

End dict_lemmas.

(** ** Validation and registration *)

Ltac run_method :=
  unfold mbind, method_bind, mret, method_ret, pure, logger, read, write;
  simpl.

Lemma str_truth_empty s : str_truth s = false ↔ s = "".
Proof. by destruct s. Qed.

Lemma validate_cases skill :
  (validate skill = Ok true ∧ ¬ malformed skill) ∨
  (∃ msg, validate skill = Raise (ValueError msg) ∧ malformed skill).
Proof.
  unfold validate, malformed.
  destruct (name (metadata skill)) eqn:Hn; simpl; [right; eauto|].
  destruct (description (metadata skill)) eqn:Hd; simpl; [right; eauto 6|].
  destruct (get_tools skill) eqn:Ht; simpl; [right; eauto 6|].
  destruct (get_loader_tool skill) eqn:Hl; simpl; [right; eauto 7|].
  left. split; [done|]. intros [?|[?|[?|?]]]; done.
Qed.

Lemma register_valid skill self :
  validate skill = Ok true →
  register skill self =
    (Ok (), with_skill self skill,
     (if Dict.contains (_skills self) (name (metadata skill))
      then [WarnOverwriting (name (metadata skill))] else []) ++
     [InfoRegistered (name (metadata skill)) (version (metadata skill))]).
Proof.
  intros Hv. unfold register. run_method. rewrite Hv.
  by destruct (Dict.contains _ _).
Qed.

Lemma register_invalid skill self e :
  validate skill = Raise e → register skill self = (Raise e, self, []).
Proof. intros Hv. unfold register. run_method. by rewrite Hv. Qed.

Lemma register_outcome skill self :
  outcome (register skill self) = Ok () ∧ ¬ malformed skill ∧
    registry_after (register skill self) = with_skill self skill
  ∨ (∃ msg, outcome (register skill self) = Raise (ValueError msg)) ∧
    malformed skill ∧ registry_after (register skill self) = self.
Proof.
  destruct (validate_cases skill) as [[Hv Hok]|(msg & Hv & Hbad)].
  - left. by rewrite register_valid.
  - right. rewrite (register_invalid _ _ _ Hv). eauto.
Qed.

Lemma unregister_cases skill_name self :
  ∀ k s, (k, s) ∈ _skills (registry_after (unregister skill_name self)) →
         (k, s) ∈ _skills self.
Proof.
  intros k s. unfold unregister. run_method.
  destruct (Dict.contains (_skills self) skill_name); [|done].
  destruct (Dict.contains (_metadata_cache self) skill_name); simpl;
    apply elem_delitem.
Qed.

(** ** Tool enumeration *)

Section enumeration.
Variable self : SkillRegistry.

Lemma loader_loop items acc :
  (∀ k s, (k, s) ∈ items → Dict.get (_skills self) k = Some s) →
  for_in items.*1 (λ name loaders,
    skill ← Dict.getitem (_skills self) name;
    if enabled (metadata skill)
    then mret (loaders ++ [get_loader_tool skill])
    else mret loaders) acc
  = Ok (acc ++ (get_loader_tool <$>
          filter (λ skill, enabled (metadata skill) = true) items.*2)).
Proof.
  revert acc. induction items as [|[k s] items IH]; intros acc Hget; simpl.
  - by rewrite app_nil_r.
  - unfold Dict.getitem. rewrite (Hget k s) by apply list_elem_of_here.
    simpl. destruct (enabled (metadata s)) eqn:He; simpl.
    + rewrite IH by (intros; by apply Hget, list_elem_of_further).
      rewrite filter_cons_True by done. by rewrite <- app_assoc.
    + rewrite IH by (intros; by apply Hget, list_elem_of_further).
      by rewrite filter_cons_False by (rewrite He; done).
Qed.

(** Without any assumption on the dict the loop still returns: every name
    it looks up is a key. *)
Lemma loader_loop_returns names acc :
  (∀ k, k ∈ names → is_Some (Dict.get (_skills self) k)) →
  ∃ loaders,
    for_in names (λ name loaders,
      skill ← Dict.getitem (_skills self) name;
      if enabled (metadata skill)
      then mret (loaders ++ [get_loader_tool skill])
      else mret loaders) acc
    = Ok loaders.
Proof.
  revert acc. induction names as [|k names IH]; intros acc Hget; simpl.
  - by eexists.
  - destruct (Hget k) as [s Hs]; [apply list_elem_of_here|].
    unfold Dict.getitem. rewrite Hs. simpl.
    destruct (enabled (metadata s)); simpl;
      apply IH; intros; by apply Hget, list_elem_of_further.
Qed.

Lemma tools_loop skill_names acc :
  for_in skill_names (λ name tools,
    if Dict.contains (_skills self) name then
      skill ← Dict.getitem (_skills self) name;
      if enabled (metadata skill)
      then mret (tools ++ get_tools skill)
      else mret tools
    else mret tools) acc
  = Ok (acc ++ concat (tools_if_loaded self <$> skill_names)).
Proof.
  revert acc. induction skill_names as [|k names IH]; intros acc; simpl.
  - by rewrite app_nil_r.
  - unfold tools_if_loaded at 1, Dict.contains, Dict.getitem.
    destruct (Dict.get (_skills self) k) as [s|]; simpl.
    + destruct (enabled (metadata s)); simpl; rewrite IH.
      * by rewrite <- app_assoc.
      * done.
    + by rewrite IH.
Qed.

Lemma loader_tools_wf :
  Dict.wf (_skills self) →
  get_all_loader_tools self None = Ok (enabled_loaders self).
Proof.
  intros Hwf. unfold get_all_loader_tools, list_skills, Dict.keys.
  rewrite loader_loop; [done|]. intros k s. by apply get_elem.
Qed.

Lemma loader_tools_returns :
  ∃ loaders, get_all_loader_tools self None = Ok loaders.
Proof. apply loader_loop_returns. intros k. apply get_key. Qed.

Lemma tools_for_skills loaders skill_names :
  get_all_loader_tools self None = Ok loaders →
  get_tools_for_skills self skill_names
  = Ok (loaders ++ concat (tools_if_loaded self <$> skill_names)).
Proof.
  intros Hl. unfold get_tools_for_skills. rewrite Hl. simpl.
  apply tools_loop.
Qed.

End enumeration.

(** ** Discovery *)

Section discovery.
Variable module_name : string.

(** The body of the loop of [discover_and_load]. *)
Local Abbreviation body := (λ (skill_path : dir_entry) (loaded_count : nat),
  if negb (is_dir skill_path) then mret loaded_count
  else
    match Dict.get (files skill_path) (module_name +:+ ".py") with
    | None => mret loaded_count
    | Some skill_file =>
        try_except
          (skill ← pure (_load_skill_from_file skill_file skill_path);
           register skill;;
           mret (loaded_count + 1))
          (λ e,
           logger (ErrorFailedToLoad (entry_name skill_path) e);;
           mret loaded_count)
    end).

(** One iteration: an entry that is not tried changes nothing, a bundle
    that loads and validates is registered and counted, and a failure is
    logged and leaves the registry and the count as they were. *)
Lemma discover_step skill_path loaded_count self :
  match attempt module_name skill_path with
  | None => body skill_path loaded_count self = (Ok loaded_count, self, [])
  | Some (Ok skill) =>
      validate skill = Ok true ∧
      body skill_path loaded_count self
      = (Ok (loaded_count + 1), with_skill self skill,
         logged (register skill self))
  | Some (Raise e) =>
      body skill_path loaded_count self
      = (Ok loaded_count, self,
         [ErrorFailedToLoad (entry_name skill_path) e])
  end.
Proof.
  unfold attempt. destruct (is_dir skill_path); simpl; [|done].
  destruct (Dict.get (files skill_path) (module_name +:+ ".py"))
    as [skill_file|]; simpl; [|done].
  unfold try_except. run_method.
  destruct (_load_skill_from_file skill_file skill_path) as [skill|e];
    simpl; [|done].
  destruct (validate_cases skill) as [[Hv _]|(msg & Hv & _)]; rewrite Hv; simpl.
  - split; [done|]. rewrite (register_valid _ _ Hv). simpl.
    by rewrite app_nil_r.
  - by rewrite (register_invalid _ _ _ Hv).
Qed.

Lemma register_logs_no_error skill self :
  validate skill = Ok true →
  filter is_error (logged (register skill self)) = [].
Proof.
  intros Hv. rewrite (register_valid _ _ Hv). unfold logged. simpl.
  by destruct (Dict.contains _ _).
Qed.

Lemma register_all_cons self skill skills :
  validate skill = Ok true →
  register_all self (skill :: skills)
  = register_all (with_skill self skill) skills.
Proof. intros Hv. unfold register_all. simpl. by rewrite register_valid. Qed.

Lemma loaded_skills_cons skill_path entries :
  loaded_skills module_name (skill_path :: entries)
  = match attempt module_name skill_path with
    | Some (Ok skill) => skill :: loaded_skills module_name entries
    | _ => loaded_skills module_name entries
    end.
Proof.
  unfold loaded_skills. simpl.
  by destruct (attempt module_name skill_path) as [[?|?]|].
Qed.

Lemma failures_cons skill_path entries :
  failures module_name (skill_path :: entries)
  = match attempt module_name skill_path with
    | Some (Raise e) =>
        ErrorFailedToLoad (entry_name skill_path) e
          :: failures module_name entries
    | _ => failures module_name entries
    end.
Proof.
  unfold failures. simpl.
  by destruct (attempt module_name skill_path) as [[?|?]|].
Qed.

Lemma discover_loop entries loaded_count self :
  ∃ records,
    for_in entries body loaded_count self
    = (Ok (loaded_count + length (loaded_skills module_name entries)),
       register_all self (loaded_skills module_name entries), records) ∧
    filter is_error records = failures module_name entries.
Proof.
  revert loaded_count self.
  induction entries as [|skill_path entries IH]; intros loaded_count self.
  - exists []. simpl. split; [|done].
    unfold mret, method_ret. by rewrite Nat.add_0_r.
  - pose proof (discover_step skill_path loaded_count self) as Hstep.
    rewrite loaded_skills_cons, failures_cons. cbn [for_in].
    unfold mbind at 1, method_bind at 1.
    destruct (attempt module_name skill_path) as [[skill|e]|] eqn:Ha.
    + destruct Hstep as [Hv Hstep]. rewrite Hstep.
      destruct (IH (loaded_count + 1) (with_skill self skill))
        as (records & -> & Herr).
      eexists. split.
      * rewrite register_all_cons by done. cbn [length].
        do 3 f_equal. lia.
      * rewrite filter_app, register_logs_no_error by done. done.
    + rewrite Hstep.
      destruct (IH loaded_count self) as (records & -> & Herr).
      eexists. split; [done|].
      rewrite filter_app. simpl filter at 1.
      rewrite filter_cons_True by done. by rewrite Herr.
    + rewrite Hstep.
      destruct (IH loaded_count self) as (records & -> & Herr).
      eexists. split; [done|]. done.
Qed.

End discovery.

Lemma discover_missing p module_name self :
  discover_and_load (Missing p) module_name self
  = (Ok 0, self, [WarnDirectoryNotFound p]).
Proof. done. Qed.

Lemma discover_regular_file p module_name self :
  discover_and_load (RegularFile p) module_name self
  = (Raise (NotADirectoryError p), self, []).
Proof. done. Qed.

Lemma bind_pure_ok {A B} (a : A) (f : A → method B) self :
  (pure (Ok a) ≫= f) self = f a self.
Proof.
  unfold mbind, method_bind, pure. by destruct (f a self) as [[r self'] l].
Qed.

Lemma discover_directory p entries module_name self :
  ∃ records,
    discover_and_load (Directory p entries) module_name self
    = (Ok (length (loaded_skills module_name entries)),
       register_all self (loaded_skills module_name entries), records) ∧
    filter is_error records = failures module_name entries.
Proof.
  destruct (discover_loop module_name entries 0 self)
    as (records & Hloop & Herr).
  unfold discover_and_load. cbn [exists_ negb iterdir path_str].
  rewrite bind_pure_ok.
  unfold mbind at 1, method_bind at 1. rewrite Hloop.
  run_method. eexists. split; [done|].
  rewrite filter_app, Herr. simpl. by rewrite app_nil_r.
Qed.

(** ** The registry invariant *)

Lemma keyed_new : keyed_by_name new_registry.
Proof. by intros k skill ?%elem_of_nil. Qed.

Lemma keyed_with_skill self skill :
  keyed_by_name self → keyed_by_name (with_skill self skill).
Proof.
  intros Hinv k s [Hin|[-> ->]]%elem_setitem; [by apply Hinv|done].
Qed.

Lemma keyed_register self skill :
  keyed_by_name self → keyed_by_name (registry_after (register skill self)).
Proof.
  intros Hinv.
  destruct (register_outcome skill self) as [(_ & _ & ->)|(_ & _ & ->)];
    [by apply keyed_with_skill|done].
Qed.

Lemma keyed_unregister self skill_name :
  keyed_by_name self →
  keyed_by_name (registry_after (unregister skill_name self)).
Proof. intros Hinv k s Hin%unregister_cases. by apply Hinv. Qed.

Lemma keyed_register_all self skills :
  keyed_by_name self → keyed_by_name (register_all self skills).
Proof.
  revert self. induction skills as [|skill skills IH]; intros self Hinv;
    [done|].
  apply IH. by apply keyed_register.
Qed.

Lemma keyed_discover self skills_dir module_name :
  keyed_by_name self →
  keyed_by_name
    (registry_after (discover_and_load skills_dir module_name self)).
Proof.
  intros Hinv. destruct skills_dir as [p|p|p entries].
  - by rewrite discover_missing.
  - by rewrite discover_regular_file.
  - destruct (discover_directory p entries module_name self)
      as (records & -> & _).
    by apply keyed_register_all.
Qed.

Lemma keyed_after calls : keyed_by_name (after calls).
Proof.
  unfold after. induction calls as [|c calls IH] using rev_ind.
  - apply keyed_new.
  - rewrite foldl_snoc. destruct c; simpl;
      auto using keyed_register, keyed_unregister, keyed_discover.
Qed.

(** ** Lookup *)

Lemma get_cases self skill_name :
  match Dict.get (_skills self) skill_name with
  | Some skill => get self skill_name = Ok skill
  | None => get self skill_name = Raise (SkillNotFoundError skill_name)
  end.
Proof.
  unfold get, Dict.contains, Dict.getitem.
  by destruct (Dict.get (_skills self) skill_name).
Qed.

Lemma get_with_skill self skill :
  get (with_skill self skill) (name (metadata skill)) = Ok skill.
Proof.
  pose proof (get_cases (with_skill self skill) (name (metadata skill))) as H.
  simpl in H. by rewrite get_setitem in H.
Qed.

Lemma get_after_register self skill :
  outcome (register skill self) = Ok () →
  get (registry_after (register skill self)) (name (metadata skill))
  = Ok skill.
Proof.
  intros Hok.
  destruct (register_outcome skill self)
    as [(_ & _ & ->)|((msg & Hraise) & _ & _)]; [|congruence].
  apply get_with_skill.
Qed.

Lemma get_keyed self skill_name skill :
  keyed_by_name self → get self skill_name = Ok skill →
  name (metadata skill) = skill_name.
Proof.
  intros Hinv Hget. pose proof (get_cases self skill_name) as Hc.
  destruct (Dict.get (_skills self) skill_name) as [s|] eqn:Hs;
    [|congruence].
  apply Hinv. apply get_Some_elem. congruence.
Qed.

(** ** What discovery registers *)

Lemma attempt_valid module_name skill_path skill :
  attempt module_name skill_path = Some (Ok skill) → validate skill = Ok true.
Proof.
  intros Ha.
  pose proof (discover_step module_name skill_path 0 new_registry) as Hstep.
  rewrite Ha in Hstep. by destruct Hstep.
Qed.

Lemma loaded_skills_valid module_name entries skill :
  skill ∈ loaded_skills module_name entries → validate skill = Ok true.
Proof.
  unfold loaded_skills. intros (skill_path & _ & Hs)%list_elem_of_omap.
  apply (attempt_valid module_name skill_path).
  by destruct (attempt module_name skill_path) as [[?|?]|]; simplify_eq.
Qed.

Lemma contains_with_skill self skill k :
  contains self k = true ∨ k = name (metadata skill) →
  contains (with_skill self skill) k = true.
Proof.
  unfold contains. intros Hk. apply contains_get. simpl.
  destruct (decide (name (metadata skill) = k)) as [<-|Hne].
  - rewrite get_setitem. by eexists.
  - rewrite get_setitem_ne by done. apply contains_get.
    by destruct Hk as [?|?].
Qed.

Lemma register_all_contains self skills k :
  (∀ skill, skill ∈ skills → validate skill = Ok true) →
  contains self k = true ∨ (∃ skill, skill ∈ skills ∧ k = name (metadata skill)) →
  contains (register_all self skills) k = true.
Proof.
  revert self. induction skills as [|s skills IH]; intros self Hv Hk.
  - destruct Hk as [?|(? & []%elem_of_nil & _)]. done.
  - rewrite register_all_cons by (apply Hv, list_elem_of_here).
    apply IH; [intros; by apply Hv, list_elem_of_further|].
    destruct Hk as [Hk|(skill & [->|Hin]%elem_of_cons & ->)].
    + left. apply contains_with_skill. by left.
    + left. apply contains_with_skill. by right.
    + right. eauto.
Qed.

(** ** The middleware *)

Lemma tools_for_skills_returns self skill_names :
  ∃ relevant_tools,
    get_tools_for_skills self skill_names = Ok relevant_tools.
Proof.
  destruct (loader_tools_returns self) as [loaders Hl].
  eexists. by apply tools_for_skills.
Qed.

Lemma filtered_tools_registry self skills_loaded :
  _get_filtered_tools self skills_loaded
  = get_tools_for_skills (registry self) skills_loaded.
Proof.
  unfold _get_filtered_tools.
  by destruct (get_tools_for_skills (registry self) skills_loaded).
Qed.

Section entry_point_lemmas.
Context {ModelResponse : Type}.
Implicit Types handler : ModelRequest → result ModelResponse.

Lemma wrap_model_call_tools self request handler relevant_tools :
  get_tools_for_skills (registry self) (skills_loaded_of request)
  = Ok relevant_tools →
  wrap_model_call self request handler
  = if verbose self then
      match mapM name_of relevant_tools with
      | Raise e =>
          ([InfoSkillsLoaded false (skills_loaded_of request)], Raise e)
      | Ok names =>
          ([InfoSkillsLoaded false (skills_loaded_of request);
            InfoFilteredTools false (length relevant_tools) names],
           handler (override request relevant_tools))
      end
    else ([], handler (override request relevant_tools)).
Proof.
  unfold wrap_model_call, skills_loaded_of. intros Ht.
  destruct (state request) as [| |[l|]|[l|]]; simpl in *;
    by rewrite filtered_tools_registry, Ht.
Qed.

Lemma awrap_model_call_tools self request handler relevant_tools :
  get_tools_for_skills (registry self) (skills_loaded_of request)
  = Ok relevant_tools →
  awrap_model_call self request handler
  = if verbose self then
      match mapM name_of relevant_tools with
      | Raise e =>
          ([InfoSkillsLoaded true (skills_loaded_of request)], Raise e)
      | Ok names =>
          ([InfoSkillsLoaded true (skills_loaded_of request);
            InfoFilteredTools true (length relevant_tools) names],
           handler (override request relevant_tools))
      end
    else ([], handler (override request relevant_tools)).
Proof.
  unfold awrap_model_call, skills_loaded_of. intros Ht.
  destruct (state request) as [| |[l|]|[l|]]; simpl in *;
    by rewrite filtered_tools_registry, Ht.
Qed.

End entry_point_lemmas.

(** * Part III: the properties of the specification *)

(** C1: [get_tools_for_skills] always returns, and what it returns is the
    result of [get_all_loader_tools] with no predicate followed by the action
    tools of every given name, in the given order, that is registered and
    enabled; the other names contribute nothing. With no name loaded it
    returns the loader tools alone. In a dict, where a key occurs once, the
    loader tools are those of the enabled registered bundles, in
    registration order. *)
Theorem tools_for_skills_loaders_then_loaded (self : SkillRegistry)
    (loaded_names : list string) :
  ∃ loaders,
    get_all_loader_tools self None = Ok loaders ∧
    get_tools_for_skills self loaded_names
    = Ok (loaders ++ concat (tools_if_loaded self <$> loaded_names)) ∧
    get_tools_for_skills self [] = get_all_loader_tools self None ∧
    (Dict.wf (_skills self) → loaders = enabled_loaders self).
Proof.
  destruct (loader_tools_returns self) as [loaders Hl].
  exists loaders. split_and!.
  - done.
  - by apply tools_for_skills.
  - rewrite (tools_for_skills self loaders []) by done.
    simpl. by rewrite app_nil_r.
  - intros Hwf. rewrite loader_tools_wf in Hl by done. congruence.
Qed.

Lemma tools_for_skills_witness :
  Dict.wf (_skills Sample.AB) ∧
  get_tools_for_skills Sample.AB ["A"; "ghost"; "B"]
  = Ok [Sample.tool "loadA"; Sample.tool "a1"; Sample.tool "a2"].
Proof.
  assert (Dict.wf (_skills Sample.AB)) as Hwf.
  { apply (bool_decide_unpack _). by vm_compute. }
  split; [done|].
  destruct (tools_for_skills_loaders_then_loaded Sample.AB
              ["A"; "ghost"; "B"]) as (loaders & _ & -> & _ & Hl).
  by rewrite (Hl Hwf).
Defined.

(** C2, as amended: under each of the three policies, when neither the
    current state nor the incoming list repeats a name, the result repeats
    none. *)
Theorem reducers_NoDup (current new : list string) :
  NoDup current → NoDup new →
  NoDup (State.skill_list_reducer current new) ∧
  NoDup (State.skill_list_accumulator current new) ∧
  ∀ max_skills, NoDup (State.skill_list_fifo max_skills current new).
Proof.
  intros Hc Hn. split_and!.
  - done.
  - rewrite accumulator_merge. by apply merge_NoDup.
  - intros max_skills. destruct current as [|c current].
    + eapply sublist_NoDup; [done|apply upto_sublist].
    + eapply sublist_NoDup; [|apply from_sublist]. by apply merge_NoDup.
Qed.

Lemma reducers_NoDup_witness :
  NoDup (State.skill_list_fifo 2 ["a"; "b"] ["b"; "c"]).
Proof.
  apply (reducers_NoDup ["a"; "b"] ["b"; "c"]);
    apply (bool_decide_unpack _); by vm_compute.
Defined.

(** C2, as stated, fails: each policy returns a repeated name when the
    incoming list repeats one, whether the current state is empty or not. *)
Lemma reducers_repeat_incoming_duplicates :
  ¬ NoDup (State.skill_list_reducer [] ["a"; "a"]) ∧
  ¬ NoDup (State.skill_list_accumulator [] ["a"; "a"]) ∧
  ¬ NoDup (State.skill_list_accumulator ["x"] ["a"; "a"]) ∧
  ¬ NoDup (State.skill_list_fifo 3 [] ["a"; "a"]) ∧
  ¬ NoDup (State.skill_list_fifo 3 ["x"] ["a"; "a"]).
Proof.
  split_and!; apply (bool_decide_eq_false_1 _); by vm_compute.
Qed.

(** C3: for a bound [K ≥ 1], the FIFO reducer on a non-empty state returns
    the last [K] entries of the state followed by the incoming names it does
    not hold; on the empty state it returns the first [K] incoming names.
    Hence loading [K + 1] distinct names one at a time, from the empty
    state, leaves the [K] most recent ones, without the first; and in a state
    the reducer produced, loading a name that is present changes nothing, so
    the name keeps its place. *)
Theorem fifo_keeps_last_K (K : Z) :
  (1 ≤ K)%Z →
  (∀ current new, current ≠ [] →
     State.skill_list_fifo K current new
     = State.last_entries (Z.to_nat K)
         (current ++ State.new_unique current new)) ∧
  (∀ new, State.skill_list_fifo K [] new = take (Z.to_nat K) new) ∧
  (∀ first rest,
     NoDup (first :: rest) → length rest = Z.to_nat K →
     State.load_each (State.skill_list_fifo K) (first :: rest) = rest ∧
     length (State.load_each (State.skill_list_fifo K) (first :: rest))
     = Z.to_nat K ∧
     first ∉ State.load_each (State.skill_list_fifo K) (first :: rest)) ∧
  (∀ updates n,
     n ∈ State.run (State.skill_list_fifo K) updates →
     State.skill_list_fifo K (State.run (State.skill_list_fifo K) updates) [n]
     = State.run (State.skill_list_fifo K) updates).
Proof.
  intros HK. split_and!.
  - intros current new Hne. by apply fifo_nonempty.
  - intros new. apply fifo_empty. lia.
  - intros first rest Hnd Hlen.
    assert (State.load_each (State.skill_list_fifo K) (first :: rest) = rest)
      as ->.
    { rewrite load_each_fifo by done. unfold State.last_entries. simpl.
      rewrite Hlen. by replace (S (Z.to_nat K) - Z.to_nat K) with 1 by lia. }
    split_and!; [done|done|]. by apply NoDup_cons in Hnd as [? _].
  - intros updates n Hin.
    pose proof (run_fifo_length K updates HK) as Hlen.
    destruct (State.run (State.skill_list_fifo K) updates) as [|m st] eqn:Hst.
    + by apply elem_of_nil in Hin.
    + rewrite fifo_nonempty, new_unique_present, app_nil_r by done.
      by apply last_entries_short.
Qed.

Lemma fifo_keeps_last_K_witness :
  State.load_each (State.skill_list_fifo 2) ["a"; "b"; "c"] = ["b"; "c"] ∧
  State.skill_list_fifo 2 ["b"; "c"] ["b"] = ["b"; "c"].
Proof.
  destruct (fifo_keeps_last_K 2 ltac:(lia)) as (_ & _ & Hload & Hsame).
  split.
  - apply (Hload "a" ["b"; "c"]); [|done].
    apply (bool_decide_unpack _). by vm_compute.
  - apply (Hsame [["b"]; ["c"]] "b").
    apply (bool_decide_unpack _). by vm_compute.
Defined.

(** C4: the accumulating reducer returns the current state followed by the
    incoming names it does not hold, in the order they come. Hence the
    current state is a prefix of the result; loading distinct names one at a
    time, from the empty state, yields exactly those names in that order;
    and loading a name that is present changes nothing. *)
Theorem accumulator_appends_new (current new : list string) :
  State.skill_list_accumulator current new
  = current ++ State.new_unique current new ∧
  current `prefix_of` State.skill_list_accumulator current new ∧
  (∀ names, NoDup names →
     State.load_each State.skill_list_accumulator names = names ∧
     length (State.load_each State.skill_list_accumulator names)
     = length names) ∧
  (∀ n, n ∈ current → State.skill_list_accumulator current [n] = current).
Proof.
  split_and!.
  - apply accumulator_merge.
  - rewrite accumulator_merge. by apply prefix_app_r.
  - intros names Hnd. by rewrite load_each_accumulator.
  - intros n Hin.
    by rewrite accumulator_merge, new_unique_present, app_nil_r.
Qed.

Lemma accumulator_appends_new_witness :
  State.load_each State.skill_list_accumulator ["a"; "b"; "c"]
  = ["a"; "b"; "c"] ∧
  State.skill_list_accumulator ["a"; "b"] ["a"] = ["a"; "b"].
Proof.
  destruct (accumulator_appends_new ["a"; "b"] []) as (_ & _ & Hload & Hsame).
  split.
  - apply Hload. apply (bool_decide_unpack _). by vm_compute.
  - apply Hsame. apply (bool_decide_unpack _). by vm_compute.
Defined.

(** C5: registering two valid bundles of one name, one after the other,
    raises nothing; the second registration leaves the size as the first
    made it and logs that it overwrites; the name has exactly one entry,
    which is the second bundle; and from a fresh registry the size is 1. *)
Theorem register_same_name_last_wins (self : SkillRegistry)
    (first second : BaseSkill) :
  Dict.wf (_skills self) →
  ¬ malformed first → ¬ malformed second →
  name (metadata first) = name (metadata second) →
  let once := register first self in
  let twice := register second (registry_after once) in
  outcome once = Ok () ∧ outcome twice = Ok () ∧
  get (registry_after twice) (name (metadata second)) = Ok second ∧
  len (registry_after twice) = len (registry_after once) ∧
  length (filter (λ k, k = name (metadata second))
            (list_skills (registry_after twice) None)) = 1 ∧
  WarnOverwriting (name (metadata second)) ∈ logged twice ∧
  (self = new_registry → len (registry_after twice) = 1).
Proof.
  intros Hwf Hfirst Hsecond Hname once twice.
  assert (validate first = Ok true) as Hv1.
  { by destruct (validate_cases first) as [[? _]|(? & _ & ?)]. }
  assert (validate second = Ok true) as Hv2.
  { by destruct (validate_cases second) as [[? _]|(? & _ & ?)]. }
  assert (Dict.contains (_skills (with_skill self first))
            (name (metadata second)) = true) as Hc.
  { apply contains_get. simpl. rewrite Hname, get_setitem. by eexists. }
  pose proof (register_valid first self Hv1) as H1.
  pose proof (register_valid second (with_skill self first) Hv2) as H2.
  rewrite Hc in H2. subst once twice. rewrite H1.
  change (registry_after (Ok (), with_skill self first, _))
    with (with_skill self first).
  rewrite H2. unfold outcome, registry_after, logged. cbn [fst snd].
  split_and!.
  - done.
  - done.
  - apply get_with_skill.
  - unfold len. by apply len_setitem_present.
  - apply wf_key_once.
    + do 2 apply wf_setitem. done.
    + apply contains_get. simpl. rewrite get_setitem. by eexists.
  - apply list_elem_of_here.
  - intros ->. unfold len, with_skill, new_registry. cbn [_skills Dict.setitem].
    rewrite Hname, decide_True by done. done.
Qed.

Lemma register_same_name_last_wins_witness :
  get (after [CallRegister Sample.A; CallRegister Sample.A']) "A"
  = Ok Sample.A' ∧
  len (after [CallRegister Sample.A; CallRegister Sample.A']) = 1.
Proof.
  assert (¬ malformed Sample.A ∧ ¬ malformed Sample.A') as [HA HA'].
  { split; by intros [?|[?|[?|?]]]. }
  destruct (register_same_name_last_wins new_registry Sample.A Sample.A'
              (NoDup_nil_2 : Dict.wf []) HA HA' eq_refl)
    as (_ & _ & Hget & _ & _ & _ & Hlen).
  split; [apply Hget|by apply Hlen].
Defined.

(** C6: [register] raises exactly when the bundle has no name, no
    description, no action or no loader, and then it raises a [ValueError];
    whenever it raises, the registry is what it was. *)
Theorem register_rejects_malformed (self : SkillRegistry)
    (skill : BaseSkill) :
  ((∃ msg, outcome (register skill self) = Raise (ValueError msg))
   ↔ malformed skill) ∧
  ((∃ e, outcome (register skill self) = Raise e) ↔ malformed skill) ∧
  (outcome (register skill self) = Ok () ↔ ¬ malformed skill) ∧
  (∀ e, outcome (register skill self) = Raise e →
        registry_after (register skill self) = self).
Proof.
  destruct (register_outcome skill self)
    as [(Hok & Hgood & _)|((msg & Hraise) & Hbad & Hsame)].
  - rewrite Hok. split_and!.
    + split; [by intros [? ?]|done].
    + split; [by intros [? ?]|done].
    + done.
    + done.
  - rewrite Hraise. split_and!.
    + split; [done|by eexists].
    + split; [done|by eexists].
    + split; [done|tauto].
    + done.
Qed.

Lemma register_rejects_malformed_witness :
  outcome (register Sample.no_tools Sample.AB)
  = Raise (ValueError "Skill must provide at least one tool") ∧
  registry_after (register Sample.no_tools Sample.AB) = Sample.AB.
Proof.
  destruct (register_rejects_malformed Sample.AB Sample.no_tools)
    as (_ & _ & _ & Hsame).
  split; [done|]. by eapply Hsame.
Defined.

(** C7: [get] raises exactly when no bundle is registered under the name,
    and then it raises [SkillNotFoundError]; otherwise it returns a bundle.
    A bundle whose registration succeeded is found under its name, and in a
    registry built by calls to [register], [unregister] and
    [discover_and_load] every bundle [get] returns bears the name asked
    for. *)
Theorem get_raises_iff_unregistered (self : SkillRegistry)
    (skill_name : string) :
  (get self skill_name = Raise (SkillNotFoundError skill_name)
   ↔ contains self skill_name = false) ∧
  ((∃ e, get self skill_name = Raise e) ↔ contains self skill_name = false) ∧
  ((∃ skill, get self skill_name = Ok skill)
   ↔ contains self skill_name = true) ∧
  (∀ skill,
     outcome (register skill self) = Ok () →
     get (registry_after (register skill self)) (name (metadata skill))
     = Ok skill) ∧
  (∀ calls skill,
     get (after calls) skill_name = Ok skill →
     name (metadata skill) = skill_name).
Proof.
  pose proof (get_cases self skill_name) as Hc.
  unfold contains, Dict.contains.
  destruct (Dict.get (_skills self) skill_name) as [s|]; rewrite Hc.
  - split_and!.
    + done.
    + split; [by intros [? ?]|done].
    + split; [done|by eexists].
    + apply get_after_register.
    + intros calls skill. apply get_keyed, keyed_after.
  - split_and!.
    + done.
    + split; [done|by eexists].
    + split; [by intros [? ?]|done].
    + apply get_after_register.
    + intros calls skill. apply get_keyed, keyed_after.
Qed.

Lemma get_raises_iff_unregistered_witness :
  get Sample.AB "ghost" = Raise (SkillNotFoundError "ghost") ∧
  get (registry_after (register Sample.A' Sample.AB)) "A" = Ok Sample.A' ∧
  name (metadata Sample.B) = "B".
Proof.
  destruct (get_raises_iff_unregistered Sample.AB "ghost")
    as (Hraise & _ & _ & Hreg & _).
  destruct (get_raises_iff_unregistered Sample.AB "B")
    as (_ & _ & _ & _ & Hname).
  split_and!.
  - by apply Hraise.
  - by apply (Hreg Sample.A').
  - by apply (Hname [CallRegister Sample.A; CallRegister Sample.B]).
Defined.

(** C8: on a root that does not exist [discover_and_load] returns 0 and
    leaves the registry alone. On a directory it returns, and what it returns
    is the number of entries whose bundle loads and passes the validation of
    [register]; the registry is the given one with these bundles registered
    in turn, each of them is found in it, and one error record is logged per
    entry that fails. With one entry that succeeds and one that fails, in
    either order, a fresh registry ends with that one bundle and the call
    returns 1. *)
Theorem discover_counts_successes (module_name : string)
    (self : SkillRegistry) :
  (∀ p,
     discover_and_load (Missing p) module_name self
     = (Ok 0, self, [WarnDirectoryNotFound p])) ∧
  (∀ p entries,
     let found := discover_and_load (Directory p entries) module_name self in
     outcome found = Ok (length (loaded_skills module_name entries)) ∧
     registry_after found
     = register_all self (loaded_skills module_name entries) ∧
     (∀ skill, skill ∈ loaded_skills module_name entries →
        contains (registry_after found) (name (metadata skill)) = true) ∧
     filter is_error (logged found) = failures module_name entries) ∧
  (∀ p good bad skill e entries,
     attempt module_name good = Some (Ok skill) →
     attempt module_name bad = Some (Raise e) →
     entries = [good; bad] ∨ entries = [bad; good] →
     let found :=
       discover_and_load (Directory p entries) module_name new_registry in
     outcome found = Ok 1 ∧
     len (registry_after found) = 1 ∧
     get (registry_after found) (name (metadata skill)) = Ok skill ∧
     filter is_error (logged found)
     = [ErrorFailedToLoad (entry_name bad) e]).
Proof.
  split_and!.
  - intros p. apply discover_missing.
  - intros p entries found. subst found.
    destruct (discover_directory p entries module_name self)
      as (records & -> & Herr).
    unfold outcome, registry_after, logged. cbn [fst snd].
    split_and!; [done|done| |done].
    intros skill Hin. apply register_all_contains.
    + intros s. apply loaded_skills_valid.
    + right. eauto.
  - intros p good bad skill e entries Hgood Hbad Hentries found.
    subst found.
    destruct (discover_directory p entries module_name new_registry)
      as (records & -> & Herr).
    unfold outcome, registry_after, logged. cbn [fst snd]. rewrite Herr.
    pose proof (attempt_valid _ _ _ Hgood) as Hv.
    assert (loaded_skills module_name entries = [skill] ∧
            failures module_name entries
            = [ErrorFailedToLoad (entry_name bad) e]) as [-> ->].
    { destruct Hentries as [-> | ->];
        rewrite !loaded_skills_cons, !failures_cons, Hgood, Hbad; done. }
    rewrite register_all_cons by done. unfold register_all. cbn [foldl].
    split_and!; [done|done| |done]. apply get_with_skill.
Qed.

Lemma discover_counts_successes_witness :
  outcome (discover_and_load
             (Directory "skills" [Sample.good_entry; Sample.bad_entry])
             "skill" new_registry) = Ok 1 ∧
  len (registry_after
         (discover_and_load
            (Directory "skills" [Sample.good_entry; Sample.bad_entry])
            "skill" new_registry)) = 1.
Proof.
  destruct (discover_counts_successes "skill" new_registry)
    as (_ & _ & Hone).
  destruct (Hone "skills" Sample.good_entry Sample.bad_entry Sample.A
              (ValueError "Skill must provide at least one tool")
              [Sample.good_entry; Sample.bad_entry])
    as (Hcount & Hlen & _); [done|done|by left|].
  split; [apply Hcount|apply Hlen].
Defined.

(** C9: the two entry points of the middleware end the same way on the same
    request and handler. [get_tools_for_skills] on the names the request's
    state reports always returns a tool list, [_get_filtered_tools] returns
    that list, and whenever an entry point reaches the handler (always when
    not verbose, and when verbose unless naming a tool for the log raises)
    it hands the handler the request with exactly that list. *)
Theorem sync_async_same_tools {ModelResponse : Type} (self : SkillMiddleware)
    (request : ModelRequest)
    (handler : ModelRequest → result ModelResponse) :
  (wrap_model_call self request handler).2
  = (awrap_model_call self request handler).2 ∧
  ∃ relevant_tools,
    get_tools_for_skills (registry self) (skills_loaded_of request)
    = Ok relevant_tools ∧
    _get_filtered_tools self (skills_loaded_of request) = Ok relevant_tools ∧
    (verbose self = false ∨ (∃ names, mapM name_of relevant_tools = Ok names)
     → (wrap_model_call self request handler).2
       = handler (override request relevant_tools) ∧
       (awrap_model_call self request handler).2
       = handler (override request relevant_tools)).
Proof.
  destruct (tools_for_skills_returns (registry self)
              (skills_loaded_of request)) as [relevant_tools Ht].
  rewrite (wrap_model_call_tools _ _ _ _ Ht).
  rewrite (awrap_model_call_tools _ _ _ _ Ht).
  split.
  - destruct (verbose self); [|done].
    by destruct (mapM name_of relevant_tools).
  - exists relevant_tools. split_and!.
    + done.
    + by rewrite filtered_tools_registry.
    + intros [-> | [names ->]]; [done|]. by destruct (verbose self).
Qed.

Lemma sync_async_same_tools_witness :
  (wrap_model_call
     {| registry := Sample.AB; verbose := true; filter_fn := None |}
     (Sample.request ["A"]) (λ request, Ok (tools request))).2
  = Ok [Sample.tool "loadA"; Sample.tool "a1"; Sample.tool "a2"] ∧
  (awrap_model_call
     {| registry := Sample.AB; verbose := true; filter_fn := None |}
     (Sample.request ["A"]) (λ request, Ok (tools request))).2
  = Ok [Sample.tool "loadA"; Sample.tool "a1"; Sample.tool "a2"].
Proof.
  destruct (sync_async_same_tools
              {| registry := Sample.AB; verbose := true; filter_fn := None |}
              (Sample.request ["A"]) (λ request, Ok (tools request)))
    as (_ & relevant_tools & Ht & _ & Hforward).
  vm_compute in Ht. injection Ht as <-.
  destruct Hforward as [-> ->]; [|done].
  right. by eexists.
Defined.

(** C10: the predicate handed to the constructor of the middleware is stored
    and never applied: with any predicate, [_get_filtered_tools] and both
    entry points do what they do with none, and the tool list is that of
    [get_tools_for_skills]. *)
Theorem filter_fn_never_applied {ModelResponse : Type}
    (skill_registry : SkillRegistry) (log_details : bool)
    (predicate : tool_ref → bool) (skills_loaded : list string)
    (request : ModelRequest)
    (handler : ModelRequest → result ModelResponse) :
  let filtering := {| registry := skill_registry; verbose := log_details;
                      filter_fn := Some predicate |} in
  let plain := {| registry := skill_registry; verbose := log_details;
                  filter_fn := None |} in
  _get_filtered_tools filtering skills_loaded
  = _get_filtered_tools plain skills_loaded ∧
  _get_filtered_tools filtering skills_loaded
  = get_tools_for_skills skill_registry skills_loaded ∧
  wrap_model_call filtering request handler
  = wrap_model_call plain request handler ∧
  awrap_model_call filtering request handler
  = awrap_model_call plain request handler.
Proof.
  intros filtering plain. split_and!.
  - done.
  - apply filtered_tools_registry.
  - done.
  - done.
Qed.

(** * Part IV: further properties of the code *)

(** ** Reducers *)

Section more_reducer_lemmas.
Import State.
Implicit Types current new : list string.

Lemma elem_of_merge current new n :
  n ∈ current ++ new_unique current new ↔ n ∈ current ∨ n ∈ new.
Proof.
  unfold new_unique. rewrite elem_of_app, list_elem_of_filter.
  destruct (decide (n ∈ current)); tauto.
Qed.

Lemma new_unique_merged current new :
  new_unique (current ++ new_unique current new) new = [].
Proof.
  unfold new_unique at 1. apply elem_of_nil_inv.
  intros n [Hout Hin]%list_elem_of_filter. apply Hout, elem_of_merge. by right.
Qed.

End more_reducer_lemmas.

(** X1: with a bound [K ≥ 1] the FIFO reducer never returns more than [K]
    names, whatever the two lists hold, and every name it returns comes from
    one of them. *)
Theorem fifo_within_bound (K : Z) (current new : list string) :
  (1 ≤ K)%Z →
  length (State.skill_list_fifo K current new) ≤ Z.to_nat K ∧
  ∀ n, n ∈ State.skill_list_fifo K current new → n ∈ current ∨ n ∈ new.
Proof.
  intros HK. split; [by apply fifo_length|].
  intros n Hin. destruct current as [|c current].
  - right. eapply elem_of_sublist; [done|apply upto_sublist].
  - apply elem_of_merge. eapply elem_of_sublist; [done|apply from_sublist].
Qed.

Lemma fifo_within_bound_witness :
  length (State.skill_list_fifo 2 ["a"; "b"; "c"] ["d"; "e"]) ≤ 2.
Proof. apply (fifo_within_bound 2 ["a"; "b"; "c"] ["d"; "e"]). lia. Defined.

(** X2: a bound of 0 bounds nothing once a skill is loaded: on a non-empty
    state the FIFO reducer then returns the whole merged list, as the
    accumulating reducer does, while on the empty state it returns nothing.
    A negative bound drops that many of the oldest entries instead of
    keeping that many of the newest. *)
Theorem fifo_nonpositive_bound (current new : list string) :
  State.skill_list_fifo 0 [] new = [] ∧
  (current ≠ [] →
   State.skill_list_fifo 0 current new
   = State.skill_list_accumulator current new) ∧
  (∀ K, (K < 0)%Z → current ≠ [] →
     State.skill_list_fifo K current new
     = drop (Z.to_nat (- K)) (current ++ State.new_unique current new)).
Proof.
  split_and!.
  - simpl. by rewrite upto_take by lia.
  - intros Hne. destruct current as [|c current]; [done|].
    unfold State.skill_list_fifo, State.skill_list_accumulator, Slice.from.
    by rewrite bound_nonneg by lia.
  - intros K HK Hne. destruct current as [|c current]; [done|].
    unfold State.skill_list_fifo, Slice.from.
    rewrite bound_nonneg by lia.
    destruct (decide (Z.to_nat (- K)
                      ≤ length ((c :: current)
                                ++ State.new_unique (c :: current) new))).
    + by rewrite Nat.min_l.
    + rewrite Nat.min_r by lia. by rewrite !drop_ge by lia.
Qed.

Lemma fifo_nonpositive_bound_witness :
  State.skill_list_fifo 0 ["a"] ["b"; "c"; "d"] = ["a"; "b"; "c"; "d"] ∧
  State.skill_list_fifo (-1) ["a"; "b"] ["c"] = ["b"; "c"].
Proof.
  destruct (fifo_nonpositive_bound ["a"] ["b"; "c"; "d"]) as (_ & Hzero & _).
  destruct (fifo_nonpositive_bound ["a"; "b"] ["c"]) as (_ & _ & Hneg).
  split; [by apply Hzero|]. by apply (Hneg (-1)%Z).
Defined.

(** X3: the accumulating reducer computes a union: a name is in the result
    exactly when it is in the current state or in the incoming list; an
    empty incoming list changes nothing; and applying the same incoming
    list a second time changes nothing more. *)
Theorem accumulator_union_idempotent (current new : list string) :
  (∀ n, n ∈ State.skill_list_accumulator current new
        ↔ n ∈ current ∨ n ∈ new) ∧
  State.skill_list_accumulator current [] = current ∧
  State.skill_list_accumulator
    (State.skill_list_accumulator current new) new
  = State.skill_list_accumulator current new.
Proof.
  split_and!.
  - intros n. rewrite accumulator_merge. apply elem_of_merge.
  - rewrite accumulator_merge. apply app_nil_r.
  - destruct current as [|c current].
    + simpl. rewrite accumulator_merge. unfold State.new_unique.
      rewrite (elem_of_nil_inv (filter _ new)); [apply app_nil_r|].
      by intros n [Hout Hin]%list_elem_of_filter.
    + rewrite (accumulator_merge (c :: current) new).
      rewrite accumulator_merge, new_unique_merged. apply app_nil_r.
Qed.

(** ** More on dictionaries *)

Section more_dict_lemmas.
Context {V W : Type}.
Implicit Types (d : list (string * V)) (k : string) (v : V) (f : V → W).

Lemma get_fmap d k f :
  Dict.get (prod_map id f <$> d) k = f <$> Dict.get d k.
Proof.
  induction d as [|[k' v'] d IH]; simpl; [done|]. by case_decide.
Qed.

Lemma contains_fmap d k f :
  Dict.contains (prod_map id f <$> d) k = Dict.contains d k.
Proof.
  unfold Dict.contains. rewrite get_fmap. by destruct (Dict.get d k).
Qed.

Lemma keys_fmap d f : Dict.keys (prod_map id f <$> d) = Dict.keys d.
Proof.
  unfold Dict.keys. induction d as [|[k' v'] d IH]; simpl; [done|].
  by f_equal.
Qed.

Lemma setitem_fmap d k v f :
  Dict.setitem (prod_map id f <$> d) k (f v)
  = prod_map id f <$> Dict.setitem d k v.
Proof.
  induction d as [|[k' v'] d IH]; simpl; [done|].
  case_decide; simpl; [done|]. by f_equal.
Qed.

Lemma delitem_fmap d k f :
  Dict.delitem (prod_map id f <$> d) k = prod_map id f <$> Dict.delitem d k.
Proof.
  induction d as [|[k' v'] d IH]; simpl; [done|].
  case_decide; simpl; [done|]. by f_equal.
Qed.

Lemma keys_delitem_sublist d k :
  Dict.keys (Dict.delitem d k) `sublist_of` Dict.keys d.
Proof.
  unfold Dict.keys. induction d as [|[k' v'] d IH]; simpl; [done|].
  case_decide; simpl.
  - by apply sublist_cons.
  - by apply sublist_skip.
Qed.

Lemma wf_delitem d k : Dict.wf d → Dict.wf (Dict.delitem d k).
Proof.
  unfold Dict.wf. intros Hwf.
  eapply sublist_NoDup; [done|apply keys_delitem_sublist].
Qed.

Lemma get_delitem d k : Dict.wf d → Dict.get (Dict.delitem d k) k = None.
Proof.
  unfold Dict.wf, Dict.keys. induction d as [|[k' v'] d IH]; simpl; [done|].
  intros [Hfresh Hnd]%NoDup_cons. case_decide as Hk; simpl.
  - subst k'. destruct (Dict.get d k) eqn:Hget; [|done].
    exfalso. apply Hfresh. apply get_Some_elem in Hget.
    by apply (list_elem_of_fmap_2 fst) in Hget.
  - rewrite decide_False by done. by apply IH.
Qed.

Lemma get_delitem_ne d k k' :
  k ≠ k' → Dict.get (Dict.delitem d k) k' = Dict.get d k'.
Proof.
  intros Hne. induction d as [|[k0 v0] d IH]; simpl; [done|].
  case_decide as Hk; simpl.
  - subst k0. by rewrite decide_False.
  - by rewrite IH.
Qed.

Lemma len_delitem d k :
  Dict.contains d k = true → S (Dict.len (Dict.delitem d k)) = Dict.len d.
Proof.
  unfold Dict.contains, Dict.len.
  induction d as [|[k' v'] d IH]; simpl; [done|].
  case_decide as Hk; simpl; [done|]. intros Hc. f_equal. by apply IH.
Qed.

Lemma delitem_absent d k : Dict.contains d k = false → Dict.delitem d k = d.
Proof.
  unfold Dict.contains. induction d as [|[k' v'] d IH]; simpl; [done|].
  case_decide as Hk; simpl; [done|]. intros Hc. f_equal. by apply IH.
Qed.

(** Deleting a key just added to a dict that lacked it gives the dict
    back. *)
Lemma delitem_setitem d k v :
  Dict.contains d k = false → Dict.delitem (Dict.setitem d k v) k = d.
Proof.
  unfold Dict.contains. induction d as [|[k' v'] d IH]; simpl.
  - by rewrite decide_True.
  - case_decide as Hk; simpl; [done|]. intros Hc.
    rewrite decide_False by done. f_equal. by apply IH.
Qed.

(** Two dicts with the same keys in the same order and the same lookups are
    the same dict. *)
Lemma dict_ext d1 d2 :
  Dict.wf d1 → Dict.keys d1 = Dict.keys d2 →
  (∀ k, Dict.get d1 k = Dict.get d2 k) → d1 = d2.
Proof.
  unfold Dict.wf, Dict.keys. revert d2.
  induction d1 as [|[k1 v1] d1 IH]; intros [|[k2 v2] d2]; simpl; try done.
  intros [Hfresh Hnd]%NoDup_cons Hkeys Hget.
  injection Hkeys as -> Hkeys.
  pose proof (Hget k2) as Hhead. rewrite !decide_True in Hhead by done.
  injection Hhead as ->. f_equal. apply IH; [done|done|].
  intros k. destruct (decide (k = k2)) as [->|Hne].
  - destruct (Dict.get d1 k2) eqn:H1.
    { exfalso. apply Hfresh. apply get_Some_elem in H1.
      by apply (list_elem_of_fmap_2 fst) in H1. }
    destruct (Dict.get d2 k2) eqn:H2; [|done].
    exfalso. apply Hfresh. rewrite Hkeys. apply get_Some_elem in H2.
    by apply (list_elem_of_fmap_2 fst) in H2.
  - specialize (Hget k). by rewrite !decide_False in Hget.
Qed.

End more_dict_lemmas.

(** ** What the registry methods keep *)

Lemma well_built_new : well_built new_registry.
Proof. split; [apply NoDup_nil_2|done]. Qed.

Lemma well_built_with_skill self skill :
  well_built self → well_built (with_skill self skill).
Proof.
  intros [Hwf Hc]. split; simpl.
  - by apply wf_setitem.
  - unfold cache_coherent in *. simpl. rewrite Hc.
    apply (setitem_fmap _ _ skill metadata).
Qed.

Lemma well_built_without_skill self skill_name :
  well_built self → well_built (without_skill self skill_name).
Proof.
  intros [Hwf Hc]. split; simpl.
  - by apply wf_delitem.
  - unfold cache_coherent in *. simpl. rewrite Hc. apply delitem_fmap.
Qed.

Lemma cache_contains self skill_name :
  cache_coherent self →
  Dict.contains (_metadata_cache self) skill_name = contains self skill_name.
Proof. intros ->. apply contains_fmap. Qed.

Lemma unregister_absent self skill_name :
  contains self skill_name = false →
  unregister skill_name self = (Ok (), self, []).
Proof.
  unfold contains. intros Hc. unfold unregister. run_method. by rewrite Hc.
Qed.

Lemma unregister_present self skill_name :
  cache_coherent self → contains self skill_name = true →
  unregister skill_name self
  = (Ok (), without_skill self skill_name, [InfoUnregistered skill_name]).
Proof.
  intros Hco Hc. pose proof (cache_contains self skill_name Hco) as Hcache.
  rewrite Hc in Hcache. unfold contains in Hc.
  unfold unregister. run_method. by rewrite Hc, Hcache.
Qed.

Lemma well_built_register self skill :
  well_built self → well_built (registry_after (register skill self)).
Proof.
  intros Hb.
  destruct (register_outcome skill self) as [(_ & _ & ->)|(_ & _ & ->)];
    [by apply well_built_with_skill|done].
Qed.

Lemma well_built_unregister self skill_name :
  well_built self →
  well_built (registry_after (unregister skill_name self)).
Proof.
  intros Hb. destruct (contains self skill_name) eqn:Hc.
  - rewrite unregister_present by (done || apply Hb).
    by apply well_built_without_skill.
  - by rewrite unregister_absent.
Qed.

Lemma well_built_register_all self skills :
  well_built self → well_built (register_all self skills).
Proof.
  revert self. induction skills as [|skill skills IH]; intros self Hb;
    [done|].
  apply IH. by apply well_built_register.
Qed.

Lemma well_built_discover self skills_dir module_name :
  well_built self →
  well_built (registry_after (discover_and_load skills_dir module_name self)).
Proof.
  intros Hb. destruct skills_dir as [p|p|p entries].
  - by rewrite discover_missing.
  - by rewrite discover_regular_file.
  - destruct (discover_directory p entries module_name self)
      as (records & -> & _).
    by apply well_built_register_all.
Qed.

Lemma well_built_after calls : well_built (after calls).
Proof.
  unfold after. induction calls as [|c calls IH] using rev_ind.
  - apply well_built_new.
  - rewrite foldl_snoc. destruct c; simpl;
      auto using well_built_register, well_built_unregister,
        well_built_discover.
Qed.

(** ** Unregistering, and registering again *)

Lemma get_without_skill self skill_name :
  Dict.wf (_skills self) →
  get (without_skill self skill_name) skill_name
  = Raise (SkillNotFoundError skill_name).
Proof.
  intros Hwf.
  pose proof (get_cases (without_skill self skill_name) skill_name) as H.
  simpl in H. by rewrite get_delitem in H.
Qed.

Lemma get_dict self skill_name :
  get self skill_name
  = match Dict.get (_skills self) skill_name with
    | Some skill => Ok skill
    | None => Raise (SkillNotFoundError skill_name)
    end.
Proof.
  pose proof (get_cases self skill_name) as H.
  by destruct (Dict.get (_skills self) skill_name).
Qed.

(** X4: on a registry whose name-to-bundle dict and metadata cache agree,
    [unregister] never raises. Of a name that is not registered it changes
    and logs nothing; of a registered name it removes the one entry, so that
    [get] and [get_metadata] of that name raise [SkillNotFoundError], the
    size drops by one and every other name is looked up as before. *)
Theorem unregister_removes_only_that_name (self : SkillRegistry)
    (skill_name : string) :
  well_built self →
  let gone := unregister skill_name self in
  outcome gone = Ok () ∧
  get (registry_after gone) skill_name
  = Raise (SkillNotFoundError skill_name) ∧
  get_metadata (registry_after gone) skill_name
  = Raise (SkillNotFoundError skill_name) ∧
  (∀ other, other ≠ skill_name →
     get (registry_after gone) other = get self other) ∧
  (contains self skill_name = false → gone = (Ok (), self, [])) ∧
  (contains self skill_name = true → S (len (registry_after gone)) = len self).
Proof.
  intros [Hwf Hco] gone. subst gone.
  destruct (contains self skill_name) eqn:Hc.
  - rewrite unregister_present by done.
    unfold outcome, registry_after. cbn [fst snd]. split_and!.
    + done.
    + by apply get_without_skill.
    + unfold get_metadata. simpl.
      rewrite Hco, delitem_fmap, contains_fmap.
      unfold Dict.contains. by rewrite get_delitem.
    + intros other Hne. rewrite !get_dict. simpl.
      by rewrite get_delitem_ne.
    + done.
    + intros _. unfold len. simpl. by apply len_delitem.
  - rewrite unregister_absent by done.
    unfold outcome, registry_after. cbn [fst snd].
    assert (Dict.get (_skills self) skill_name = None) as Hnone.
    { by apply contains_false. }
    split_and!; try done.
    + by rewrite get_dict, Hnone.
    + unfold get_metadata. rewrite cache_contains by done. by rewrite Hc.
Qed.

Lemma unregister_removes_only_that_name_witness :
  get (registry_after (unregister "A" Sample.AB)) "A"
  = Raise (SkillNotFoundError "A") ∧
  get (registry_after (unregister "A" Sample.AB)) "B" = Ok Sample.B.
Proof.
  destruct (unregister_removes_only_that_name Sample.AB "A"
              (well_built_after [CallRegister Sample.A; CallRegister Sample.B]))
    as (_ & Hgone & _ & Hother & _).
  split; [apply Hgone|]. by rewrite (Hother "B").
Defined.

(** X5: registering a valid bundle under a name that is not registered and
    then unregistering that name gives back the registry as it was, order
    included. *)
Theorem register_unregister_restores (self : SkillRegistry)
    (skill : BaseSkill) :
  well_built self → ¬ malformed skill →
  contains self (name (metadata skill)) = false →
  registry_after
    (unregister (name (metadata skill))
       (registry_after (register skill self))) = self.
Proof.
  intros [Hwf Hco] Hgood Hfresh.
  destruct (register_outcome skill self) as [(_ & _ & ->)|(_ & Hbad & _)];
    [|done].
  rewrite unregister_present.
  - unfold registry_after, without_skill, with_skill. cbn [fst snd].
    cbn [_skills _metadata_cache].
    rewrite !delitem_setitem; [by destruct self|by rewrite cache_contains|done].
  - by apply well_built_with_skill.
  - apply contains_with_skill. by right.
Qed.

Lemma register_unregister_restores_witness :
  registry_after
    (unregister "A" (registry_after (register Sample.A new_registry)))
  = new_registry.
Proof.
  apply (register_unregister_restores new_registry Sample.A).
  - apply well_built_new.
  - by intros [?|[?|[?|?]]].
  - done.
Defined.

(** X6: a registration that succeeds touches one name only: every other
    name is looked up as before, a name that was registered keeps its place
    in the enumeration and the size stays, and a new name goes last and the
    size grows by one. *)
Theorem register_keeps_other_names (self : SkillRegistry)
    (skill : BaseSkill) :
  outcome (register skill self) = Ok () →
  let self' := registry_after (register skill self) in
  (∀ other, other ≠ name (metadata skill) → get self' other = get self other) ∧
  (contains self (name (metadata skill)) = true →
     list_skills self' None = list_skills self None ∧ len self' = len self) ∧
  (contains self (name (metadata skill)) = false →
     list_skills self' None = list_skills self None ++ [name (metadata skill)] ∧
     len self' = S (len self)).
Proof.
  intros Hok self'. subst self'.
  destruct (register_outcome skill self)
    as [(_ & _ & ->)|((msg & Hraise) & _ & _)]; [|congruence].
  unfold contains, len, list_skills. simpl. split_and!.
  - intros other Hne. rewrite !get_dict. simpl.
    by rewrite get_setitem_ne.
  - intros Hc. split; [by apply keys_setitem_present|].
    by apply len_setitem_present.
  - intros Hc. pose proof (keys_setitem_absent _ _ skill Hc) as Hkeys.
    split; [done|].
    apply (f_equal length) in Hkeys. unfold Dict.keys, Dict.len in *.
    rewrite length_app, !length_fmap in Hkeys. simpl in Hkeys. lia.
Qed.

Lemma register_keeps_other_names_witness :
  list_skills (registry_after (register Sample.A' Sample.AB)) None
  = ["A"; "B"] ∧
  get (registry_after (register Sample.A' Sample.AB)) "B" = Ok Sample.B.
Proof.
  destruct (register_keeps_other_names Sample.AB Sample.A' eq_refl)
    as (Hother & Hpresent & _).
  split.
  - by destruct (Hpresent eq_refl) as [-> _].
  - by rewrite (Hother "B").
Defined.

(** ** Enumeration with a predicate *)

Lemma values_filter (filter_fn : SkillMetadata → bool)
    (d : list (string * BaseSkill)) :
  Dict.values (filter (λ item, filter_fn (metadata item.2) = true) d)
  = filter (λ skill, filter_fn (metadata skill) = true) (Dict.values d).
Proof.
  unfold Dict.values. induction d as [|[k s] d IH]; [done|]. simpl.
  destruct (filter_fn (metadata s)) eqn:Hf.
  - rewrite !filter_cons_True by done. simpl. by f_equal.
  - rewrite !filter_cons_False by (simpl; congruence). done.
Qed.

Lemma list_skills_filtered self (filter_fn : SkillMetadata → bool) :
  cache_coherent self →
  list_skills self (Some filter_fn)
  = Dict.keys (filter (λ item, filter_fn (metadata item.2) = true)
                 (_skills self)).
Proof.
  unfold list_skills, Dict.keys. intros ->.
  induction (_skills self) as [|[k s] d IH]; [done|]. simpl.
  destruct (filter_fn (metadata s)) eqn:Hf.
  - rewrite !filter_cons_True by done. simpl. by f_equal.
  - rewrite !filter_cons_False by (simpl; congruence). done.
Qed.

(** X7: in a registry built by calls to its methods the metadata cache
    agrees with the bundles: [get_metadata] returns the metadata of the
    bundle [get] returns, and raises when [get] raises. *)
Theorem get_metadata_agrees_with_get (calls : list call)
    (skill_name : string) :
  match get (after calls) skill_name with
  | Ok skill => get_metadata (after calls) skill_name = Ok (metadata skill)
  | Raise e => get_metadata (after calls) skill_name = Raise e
  end.
Proof.
  destruct (well_built_after calls) as [_ Hco].
  rewrite get_dict. unfold get_metadata, Dict.contains, Dict.getitem.
  rewrite Hco, get_fmap.
  by destruct (Dict.get (_skills (after calls)) skill_name).
Qed.

(** X8: in a registry built by calls to its methods, [list_skills] with a
    predicate returns, in registration order, a selection of what it
    returns without one: exactly the registered names whose bundle's
    metadata satisfies the predicate. *)
Theorem list_skills_filter_selects (calls : list call)
    (filter_fn : SkillMetadata → bool) :
  list_skills (after calls) (Some filter_fn)
    `sublist_of` list_skills (after calls) None ∧
  (∀ skill_name,
     skill_name ∈ list_skills (after calls) (Some filter_fn)
     ↔ ∃ skill, get (after calls) skill_name = Ok skill ∧
                filter_fn (metadata skill) = true) ∧
  list_skills (after calls) (Some (λ _, true)) = list_skills (after calls) None.
Proof.
  destruct (well_built_after calls) as [Hwf Hco].
  rewrite !list_skills_filtered by done. unfold list_skills, Dict.keys.
  split_and!.
  - apply fmap_sublist, sublist_filter.
  - intros skill_name. rewrite list_elem_of_fmap. split.
    + intros ([k s] & -> & [Hf Hin]%list_elem_of_filter).
      exists s. split; [|done]. simpl. rewrite get_dict.
      by rewrite (get_elem _ _ _ Hwf Hin).
    + intros (s & Hget & Hf). rewrite get_dict in Hget.
      destruct (Dict.get (_skills (after calls)) skill_name) as [s'|] eqn:Hs;
        [|done].
      injection Hget as ->. exists (skill_name, s). split; [done|].
      apply list_elem_of_filter. split; [done|]. by apply get_Some_elem.
  - clear Hwf. induction (_skills (after calls)) as [|item d IH]; [done|].
    rewrite filter_cons_True by done. simpl. by f_equal.
Qed.

(** X9: in a registry built by calls to its methods,
    [get_all_loader_tools] with a predicate never raises: it returns the
    loader tools of the bundles that satisfy the predicate and are enabled,
    in registration order. *)
Theorem loader_tools_filter_selects (calls : list call)
    (filter_fn : SkillMetadata → bool) :
  get_all_loader_tools (after calls) (Some filter_fn)
  = Ok (get_loader_tool <$>
          filter (λ skill, enabled (metadata skill) = true)
            (filter (λ skill, filter_fn (metadata skill) = true)
               (Dict.values (_skills (after calls))))).
Proof.
  destruct (well_built_after calls) as [Hwf Hco].
  unfold get_all_loader_tools. rewrite list_skills_filtered by done.
  unfold Dict.keys. rewrite loader_loop.
  - simpl. do 3 f_equal. apply values_filter.
  - intros k s [_ Hin]%list_elem_of_filter. by apply get_elem.
Qed.

(** ** All tools, and the tools of the loaded skills *)

Lemma elem_of_concat {A} (x : A) (ls : list (list A)) :
  x ∈ concat ls ↔ ∃ l, x ∈ l ∧ l ∈ ls.
Proof.
  induction ls as [|l ls IH]; simpl.
  - split; [by intros ?%elem_of_nil|by intros (? & _ & ?%elem_of_nil)].
  - rewrite elem_of_app, IH. split.
    + intros [Hx|(l' & Hx & Hl')].
      * exists l. split; [done|apply list_elem_of_here].
      * exists l'. split; [done|by apply list_elem_of_further].
    + intros (l' & Hx & [->|Hl']%elem_of_cons); [by left|right; eauto].
Qed.

Lemma all_tools_loop self items acc :
  (∀ k s, (k, s) ∈ items → Dict.get (_skills self) k = Some s) →
  for_in items.*1 (λ name all_tools,
    skill ← Dict.getitem (_skills self) name;
    if enabled (metadata skill)
    then mret ((all_tools ++ [get_loader_tool skill]) ++ get_tools skill)
    else mret all_tools) acc
  = Ok (acc ++ concat ((λ skill, get_loader_tool skill :: get_tools skill) <$>
          filter (λ skill, enabled (metadata skill) = true) items.*2)).
Proof.
  revert acc. induction items as [|[k s] items IH]; intros acc Hget; simpl.
  - by rewrite app_nil_r.
  - unfold Dict.getitem. rewrite (Hget k s) by apply list_elem_of_here.
    simpl. destruct (enabled (metadata s)) eqn:He; simpl.
    + rewrite IH by (intros; by apply Hget, list_elem_of_further).
      rewrite filter_cons_True by done. simpl.
      by rewrite <- !app_assoc.
    + rewrite IH by (intros; by apply Hget, list_elem_of_further).
      by rewrite filter_cons_False by (rewrite He; done).
Qed.

Lemma all_tools_wf self :
  Dict.wf (_skills self) →
  get_all_tools self None
  = Ok (concat ((λ skill, get_loader_tool skill :: get_tools skill) <$>
          filter (λ skill, enabled (metadata skill) = true)
            (Dict.values (_skills self)))).
Proof.
  intros Hwf. unfold get_all_tools, list_skills, Dict.keys.
  rewrite all_tools_loop; [done|]. intros k s. by apply get_elem.
Qed.

(** X10: what the agent is given up front covers what the filter can ever
    show: in a dict, [get_all_tools] with no predicate returns, bundle by
    enabled bundle in registration order, the loader followed by the action
    tools, and every tool [get_tools_for_skills] returns, for whatever names,
    is among them. *)
Theorem all_tools_cover_tools_for_skills (self : SkillRegistry)
    (skill_names : list string) :
  Dict.wf (_skills self) →
  ∃ all_tools relevant_tools,
    get_all_tools self None = Ok all_tools ∧
    all_tools
    = concat ((λ skill, get_loader_tool skill :: get_tools skill) <$>
        filter (λ skill, enabled (metadata skill) = true)
          (Dict.values (_skills self))) ∧
    get_tools_for_skills self skill_names = Ok relevant_tools ∧
    ∀ t, t ∈ relevant_tools → t ∈ all_tools.
Proof.
  intros Hwf. eexists _, _. split_and!.
  - by apply all_tools_wf.
  - done.
  - apply tools_for_skills. by apply loader_tools_wf.
  - intros t [Hl|Ht]%elem_of_app; apply elem_of_concat.
    + unfold enabled_loaders in Hl.
      apply list_elem_of_fmap in Hl as (s & -> & Hs).
      exists (get_loader_tool s :: get_tools s).
      split; [apply list_elem_of_here|].
      by apply (list_elem_of_fmap_2
                  (λ skill, get_loader_tool skill :: get_tools skill)).
    + apply elem_of_concat in Ht as (l & Ht & Hl).
      apply list_elem_of_fmap in Hl as (k & -> & _).
      unfold tools_if_loaded in Ht.
      destruct (Dict.get (_skills self) k) as [s|] eqn:Hs;
        [|by apply elem_of_nil in Ht].
      destruct (enabled (metadata s)) eqn:He; [|by apply elem_of_nil in Ht].
      exists (get_loader_tool s :: get_tools s).
      split; [by apply list_elem_of_further|].
      apply (list_elem_of_fmap_2
               (λ skill, get_loader_tool skill :: get_tools skill)).
      apply list_elem_of_filter. split; [done|].
      apply get_Some_elem in Hs. unfold Dict.values.
      by apply (list_elem_of_fmap_2 snd) in Hs.
Qed.

Lemma all_tools_cover_tools_for_skills_witness :
  get_all_tools Sample.AB None
  = Ok [Sample.tool "loadA"; Sample.tool "a1"; Sample.tool "a2"].
Proof.
  destruct (all_tools_cover_tools_for_skills Sample.AB ["A"])
    as (all_tools & relevant_tools & -> & -> & _).
  - apply (bool_decide_unpack _). by vm_compute.
  - done.
Defined.

(** X11: loading more never hides a tool, as long as the registry stays as
    it is: what [get_tools_for_skills] returns for a list of names is a
    prefix of what it returns for any extension of that list, and so, under
    the accumulating reducer, the tools visible before an update are a prefix
    of those visible after it. *)
Theorem tools_grow_with_loaded_names (self : SkillRegistry)
    (loaded more current new : list string) :
  (∃ before after_more,
     get_tools_for_skills self loaded = Ok before ∧
     get_tools_for_skills self (loaded ++ more) = Ok after_more ∧
     before `prefix_of` after_more) ∧
  (∃ before after_update,
     get_tools_for_skills self current = Ok before ∧
     get_tools_for_skills self (State.skill_list_accumulator current new)
     = Ok after_update ∧
     before `prefix_of` after_update).
Proof.
  destruct (loader_tools_returns self) as [loaders Hl].
  assert (∀ names extra,
            loaders ++ concat (tools_if_loaded self <$> names)
            `prefix_of`
            loaders ++ concat (tools_if_loaded self <$> names ++ extra))
    as Hprefix.
  { intros names extra. rewrite fmap_app, concat_app, app_assoc.
    by apply prefix_app_r. }
  split.
  - eexists _, _. split_and!; [by apply tools_for_skills..|apply Hprefix].
  - rewrite accumulator_merge.
    eexists _, _. split_and!; [by apply tools_for_skills..|apply Hprefix].
Qed.

(** ** Discovery, again *)

(** X12: [discover_and_load] raises only when the root exists and is not a
    directory; what it raises then is the error of [iterdir], and the
    registry is as it was and nothing is logged. *)
Theorem discover_raises_only_on_a_file (skills_dir : path)
    (module_name : string) (self : SkillRegistry) :
  let found := discover_and_load skills_dir module_name self in
  ((∃ e, outcome found = Raise e) ↔ ∃ p, skills_dir = RegularFile p) ∧
  (∀ e, outcome found = Raise e →
        e = NotADirectoryError (path_str skills_dir) ∧
        registry_after found = self ∧ logged found = []).
Proof.
  intros found. subst found. destruct skills_dir as [p|p|p entries].
  - rewrite discover_missing. split.
    + split; [by intros [? ?]|by intros [? ?]].
    + done.
  - rewrite discover_regular_file. split.
    + split; [by eexists|by eexists].
    + intros e Heq. injection Heq as <-. done.
  - destruct (discover_directory p entries module_name self)
      as (records & -> & _). split.
    + split; [by intros [? ?]|by intros [? ?]].
    + done.
Qed.

Section set_all.
Context {V : Type} (key : V → string).
Implicit Types (d : list (string * V)) (l : list V).

Local Abbreviation step := (λ d (v : V), Dict.setitem d (key v) v).

Lemma contains_setitem d k k' v :
  Dict.contains d k' = true → Dict.contains (Dict.setitem d k v) k' = true.
Proof.
  intros Hc. apply contains_get. destruct (decide (k = k')) as [->|Hne].
  - rewrite get_setitem. by eexists.
  - rewrite get_setitem_ne by done. by apply contains_get.
Qed.

Lemma wf_set_all d l : Dict.wf d → Dict.wf (foldl step d l).
Proof.
  revert d. induction l as [|v l IH]; intros d Hwf; [done|].
  simpl. by apply IH, wf_setitem.
Qed.

Lemma keys_set_all_present d l :
  (∀ v, v ∈ l → Dict.contains d (key v) = true) →
  Dict.keys (foldl step d l) = Dict.keys d.
Proof.
  revert d. induction l as [|v l IH]; intros d Hc; [done|]. simpl.
  rewrite IH.
  - apply keys_setitem_present, Hc, list_elem_of_here.
  - intros v' Hv'. by apply contains_setitem, Hc, list_elem_of_further.
Qed.

Lemma contains_set_all d l k :
  Dict.contains d k = true ∨ (∃ v, v ∈ l ∧ key v = k) →
  Dict.contains (foldl step d l) k = true.
Proof.
  revert d. induction l as [|v l IH]; intros d Hk; simpl.
  - destruct Hk as [?|(? & []%elem_of_nil & _)]. done.
  - apply IH. destruct Hk as [Hk|(v' & [->|Hin]%elem_of_cons & <-)].
    + left. by apply contains_setitem.
    + left. apply contains_get. rewrite get_setitem. by eexists.
    + right. eauto.
Qed.

(** A lookup after the updates finds the last update of the key, or else
    what was there. *)
Lemma get_set_all d l k :
  Dict.get (foldl step d l) k
  = from_option Some (Dict.get d k) (last (filter (λ v, key v = k) l)).
Proof.
  revert d. induction l as [|v l IH]; intros d; [done|]. simpl. rewrite IH.
  destruct (decide (key v = k)) as [<-|Hne].
  - rewrite filter_cons_True by done. rewrite get_setitem.
    destruct (filter (λ v0, key v0 = key v) l) as [|w ws] eqn:Hf; [done|].
    rewrite last_cons_cons, (last_cons w ws). by destruct (last ws).
  - rewrite filter_cons_False by done. by rewrite get_setitem_ne.
Qed.

Lemma set_all_twice d l :
  Dict.wf d → foldl step (foldl step d l) l = foldl step d l.
Proof.
  intros Hwf. apply dict_ext.
  - by do 2 apply wf_set_all.
  - apply keys_set_all_present. intros v Hv.
    apply contains_set_all. right. eauto.
  - intros k. rewrite (get_set_all (foldl step d l)).
    rewrite (get_set_all d).
    by destruct (last (filter (λ v, key v = k) l)).
Qed.

End set_all.

Lemma skills_register_all self skills :
  (∀ skill, skill ∈ skills → validate skill = Ok true) →
  _skills (register_all self skills)
  = foldl (λ d skill, Dict.setitem d (name (metadata skill)) skill)
      (_skills self) skills.
Proof.
  revert self. induction skills as [|s skills IH]; intros self Hv; [done|].
  rewrite register_all_cons by (apply Hv, list_elem_of_here).
  rewrite IH by (intros; by apply Hv, list_elem_of_further). done.
Qed.

Lemma well_built_eq self self' :
  cache_coherent self → cache_coherent self' →
  _skills self = _skills self' → self = self'.
Proof.
  unfold cache_coherent. destruct self, self'. simpl. by intros -> -> ->.
Qed.

(** X13: running discovery a second time on the same directory changes
    nothing: it returns the same count, and the registry it leaves is the
    one the first run left, order included. *)
Theorem discover_twice_changes_nothing (p module_name : string)
    (entries : list dir_entry) (self : SkillRegistry) :
  well_built self →
  let once := discover_and_load (Directory p entries) module_name self in
  let twice :=
    discover_and_load (Directory p entries) module_name
      (registry_after once) in
  outcome twice = outcome once ∧ registry_after twice = registry_after once.
Proof.
  intros Hb once twice. subst once twice.
  destruct (discover_directory p entries module_name self)
    as (records & E1 & _).
  destruct (discover_directory p entries module_name
              (register_all self (loaded_skills module_name entries)))
    as (records' & E2 & _).
  rewrite E1.
  change (registry_after (_, ?r, _)) with r.
  rewrite E2. unfold outcome. cbn [fst snd]. split; [done|].
  change (registry_after (_, ?r, _)) with r.
  pose proof (loaded_skills_valid module_name entries) as Hv.
  apply well_built_eq.
  - by do 2 apply well_built_register_all.
  - by apply well_built_register_all.
  - rewrite !skills_register_all by done.
    apply (set_all_twice (λ skill, name (metadata skill))), Hb.
Qed.

Lemma discover_twice_changes_nothing_witness :
  registry_after
    (discover_and_load (Directory "skills" [Sample.good_entry]) "skill"
       (registry_after
          (discover_and_load (Directory "skills" [Sample.good_entry]) "skill"
             Sample.AB)))
  = registry_after
      (discover_and_load (Directory "skills" [Sample.good_entry]) "skill"
         Sample.AB).
Proof.
  apply (discover_twice_changes_nothing "skills" "skill" [Sample.good_entry]
           Sample.AB
           (well_built_after [CallRegister Sample.A; CallRegister Sample.B])).
Defined.

(** ** Search *)

Lemma foldl_keep {A} (keep : A → bool) (l acc : list A) :
  foldl (λ results x, if keep x then results ++ [x] else results) acc l
  = acc ++ filter (λ x, keep x = true) l.
Proof.
  revert acc. induction l as [|x l IH]; intros acc; simpl.
  - by rewrite app_nil_r.
  - rewrite IH. destruct (keep x) eqn:Hk.
    + rewrite filter_cons_True by done. by rewrite <- app_assoc.
    + by rewrite filter_cons_False by congruence.
Qed.

Lemma foldl_pointwise {A B} (f g : A → B → A) (l : list B) (a : A) :
  (∀ a x, f a x = g a x) → foldl f a l = foldl g a l.
Proof.
  intros Hfg. revert a. induction l as [|x l IH]; intros a; [done|].
  simpl. by rewrite Hfg, IH.
Qed.

Lemma any_tag_in_spec requested meta_tags :
  any_tag_in requested meta_tags = true
  ↔ ∃ tag, tag ∈ requested ∧ tag ∈ meta_tags.
Proof.
  unfold any_tag_in. rewrite existsb_exists. split.
  - intros (tag & Hin%list_elem_of_In & Hd%bool_decide_eq_true). eauto.
  - intros (tag & Hin & Hd). exists tag.
    split; [by apply list_elem_of_In|by apply bool_decide_eq_true].
Qed.

Section search_lemmas.
Variable lower : string → string.

(** The test the loop of [search] makes, as one boolean. *)
Local Abbreviation kept query tags' visibility' := (λ meta : SkillMetadata,
  negb (str_truth query
        && (negb (str_in (lower query) (lower (name meta)))
            && negb (str_in (lower query) (lower (description meta)))))
  && negb (tags_truth tags'
           && negb (any_tag_in (default [] tags') (tags meta)))
  && negb (visibility_truth visibility'
           && negb (bool_decide (Some (visibility meta) = visibility')))).

Lemma search_filter self query tags' visibility' :
  search lower self query tags' visibility'
  = filter (λ meta, kept query tags' visibility' meta = true)
      (Dict.values (_metadata_cache self)).
Proof.
  unfold search. rewrite <- (app_nil_l (filter _ _)), <- foldl_keep.
  apply foldl_pointwise. intros results meta.
  destruct (str_truth query && _); [done|].
  destruct (tags_truth tags' && _); [done|].
  by destruct (visibility_truth visibility' && _).
Qed.

Lemma kept_matches query tags' visibility' meta :
  kept query tags' visibility' meta = true
  ↔ matches lower query tags' visibility' meta.
Proof.
  unfold matches. rewrite !andb_true_iff, !negb_true_iff, !andb_false_iff,
    !negb_false_iff.
  assert (str_truth query = false ↔ query = "") as -> by by destruct query.
  assert (tags_truth tags' = false ↔ tags' = None ∨ tags' = Some []) as ->.
  { destruct tags' as [[|t ts]|]; simpl; split; intros Ht;
      try done; try tauto; by destruct Ht. }
  assert (visibility_truth visibility' = false
          ↔ visibility' = None ∨ visibility' = Some "") as ->.
  { destruct visibility' as [[|c v]|]; simpl; split; intros Hv;
      try done; try tauto; by destruct Hv. }
  rewrite any_tag_in_spec, bool_decide_eq_true.
  assert (Some (visibility meta) = visibility'
          ↔ visibility' = Some (visibility meta)) as -> by (split; congruence).
  tauto.
Qed.

End search_lemmas.

(** X14: [search] returns, in registration order, exactly the cached
    metadata that pass its three tests: the lowered query occurs in the
    lowered name or description, one of the requested tags is among the
    tags, and the visibility is the requested one; an empty query, no tags
    or an empty list of tags, and no visibility or an empty one each ask
    nothing, so a search with all three left out returns every entry. *)
Theorem search_selects_matches (lower : string → string)
    (self : SkillRegistry) (query : string) (tags' : option (list string))
    (visibility' : option string) :
  search lower self query tags' visibility'
    `sublist_of` Dict.values (_metadata_cache self) ∧
  (∀ meta,
     meta ∈ search lower self query tags' visibility'
     ↔ meta ∈ Dict.values (_metadata_cache self) ∧
       matches lower query tags' visibility' meta) ∧
  search lower self "" None None = Dict.values (_metadata_cache self) ∧
  search lower self "" (Some []) (Some "")
  = Dict.values (_metadata_cache self).
Proof.
  rewrite !search_filter. split_and!.
  - apply sublist_filter.
  - intros meta. rewrite list_elem_of_filter, kept_matches. tauto.
  - induction (Dict.values (_metadata_cache self)) as [|meta l IH]; [done|].
    rewrite filter_cons_True by done. by f_equal.
  - induction (Dict.values (_metadata_cache self)) as [|meta l IH]; [done|].
    rewrite filter_cons_True by done. by f_equal.
Qed.

(** ** The simplified middleware *)


(** X15: unlike the middleware proper, the simplified one applies its
    predicate: [get_tools_for_state] never fails to obtain the tools of the
    registry, and what it returns is a selection of them, in order, holding
    exactly those the predicate accepts (all of them when there is no
    predicate); it raises only while naming the tools for the verbose log.
    The placeholder class computes the same, and
    [create_skill_aware_tools] without names returns the loader tools. *)
Theorem simple_middleware_applies_predicate (skill_registry : SkillRegistry)
    (verbose : bool) (filter_fn : option (tool_ref → bool))
    (skills_loaded : list string) :
  let simple := {| Simple.registry := skill_registry;
                   Simple.verbose := verbose;
                   Simple.filter_fn := filter_fn |} in
  let placeholder := (Simple.new_placeholder skill_registry verbose filter_fn).2 in
  ∃ relevant_tools,
    get_tools_for_skills skill_registry skills_loaded = Ok relevant_tools ∧
    (∀ tools,
       (Simple.get_tools_for_state simple skills_loaded).2 = Ok tools →
       tools `sublist_of` relevant_tools ∧
       (∀ t, t ∈ tools
             ↔ t ∈ relevant_tools ∧
               from_option (λ accepts, accepts t = true) True filter_fn) ∧
       (filter_fn = None → tools = relevant_tools)) ∧
    (verbose = false →
     ∃ tools, Simple.get_tools_for_state simple skills_loaded = ([], Ok tools)) ∧
    Simple.get_tools_for_skills placeholder skills_loaded
    = Simple.get_tools_for_state simple skills_loaded ∧
    Simple.create_skill_aware_tools skill_registry None
    = get_all_loader_tools skill_registry None ∧
    Simple.create_skill_aware_tools skill_registry (Some skills_loaded)
    = Ok relevant_tools.
Proof.
  intros simple placeholder. subst simple placeholder.
  destruct (tools_for_skills_returns skill_registry skills_loaded)
    as [relevant_tools Ht].
  exists relevant_tools. unfold Simple.get_tools_for_state. simpl.
  rewrite Ht. split_and!.
  - done.
  - intros tools Hret.
    assert (tools = match filter_fn with
                    | Some accepts => filter (λ t, accepts t = true)
                                        relevant_tools
                    | None => relevant_tools
                    end) as ->.
    { destruct verbose; simpl in Hret; [|congruence].
      destruct (mapM name_of _); simpl in Hret; congruence. }
    destruct filter_fn as [accepts|]; simpl.
    + split_and!; [apply sublist_filter| |done].
      intros t. rewrite list_elem_of_filter. tauto.
    + split_and!; [done| |done]. intros t. tauto.
  - intros ->. by eexists.
  - unfold Simple.get_tools_for_skills. simpl. by rewrite Ht.
  - destruct (loader_tools_returns skill_registry) as [loaders Hl].
    unfold Simple.create_skill_aware_tools.
    rewrite (tools_for_skills skill_registry loaders []) by done.
    simpl. by rewrite app_nil_r.
  - done.
Qed.

Lemma simple_middleware_applies_predicate_witness :
  Simple.get_tools_for_state
    {| Simple.registry := Sample.AB; Simple.verbose := false;
       Simple.filter_fn := Some (λ t, bool_decide (name_of t = Ok "a1")) |}
    ["A"]
  = ([], Ok [Sample.tool "a1"]).
Proof.
  destruct (simple_middleware_applies_predicate Sample.AB false
              (Some (λ t, bool_decide (name_of t = Ok "a1"))) ["A"])
    as (relevant_tools & _ & _ & Hquiet & _).
  destruct (Hquiet eq_refl) as [tools Heq]. rewrite Heq.
  vm_compute in Heq. by injection Heq as <-.
Defined.

(** ** The subclasses of the middleware *)

Section subclass_lemmas.
Context {ModelResponse : Type}.
Implicit Types handler : ModelRequest → result ModelResponse.

(** A rate-limited middleware serving requests one after the other: the
    outcomes, and the object at the end. *)
Lemma rate_limited_serves self handler (requests : list ModelRequest) :
  foldl (λ '(served, self) request,
           let '(out, self') :=
             rate_limited_wrap_model_call self request handler in
           (served ++ [out], self'))
    ([], self) requests
  = ((λ request, wrap_model_call (rate_base self) request handler)
       <$> requests, self).
Proof.
  assert (∀ served,
    foldl (λ '(served, self) request,
             let '(out, self') :=
               rate_limited_wrap_model_call self request handler in
             (served ++ [out], self'))
      (served, self) requests
    = (served ++ ((λ request, wrap_model_call (rate_base self) request handler)
                    <$> requests), self)) as H.
  { induction requests as [|request requests IH]; intros served; simpl.
    - by rewrite app_nil_r.
    - rewrite IH. by rewrite <- app_assoc. }
  apply (H []).
Qed.

End subclass_lemmas.

(** X16: the two subclasses restrict nothing. A permission-aware
    middleware, whatever the user's permissions, ends every call as the
    plain middleware of the same registry does; and a rate-limited one,
    however many requests it serves, answers each as the plain middleware
    does and still holds no call count at the end. *)
Theorem subclasses_restrict_nothing {ModelResponse : Type}
    (skill_registry : SkillRegistry) (permissions : option (list string))
    (log_details : bool) (request : ModelRequest)
    (requests : list ModelRequest)
    (handler : ModelRequest → result ModelResponse) :
  let plain := {| registry := skill_registry; verbose := log_details;
                  filter_fn := None |} in
  let aware := new_permission_aware skill_registry permissions log_details in
  let limited := new_rate_limited skill_registry log_details in
  wrap_model_call (permission_base aware) request handler
  = wrap_model_call plain request handler ∧
  awrap_model_call (permission_base aware) request handler
  = awrap_model_call plain request handler ∧
  rate_limited_awrap_model_call limited request handler
  = (awrap_model_call plain request handler, limited) ∧
  ∃ final,
    foldl (λ '(served, self) request,
             let '(out, self') :=
               rate_limited_wrap_model_call self request handler in
             (served ++ [out], self'))
      ([], limited) requests
    = ((λ request, wrap_model_call plain request handler) <$> requests,
       final) ∧
    call_counts final = [].
Proof.
  intros plain aware limited. split_and!; [done..|].
  exists limited. split; [|done]. apply rate_limited_serves.
Qed.

(** ** Checking a skill directory *)

Lemma validate_directory p entries :
  validate_skill_structure (Directory p entries)
  = (if child_exists (Directory p entries) "skill.py" then []
     else ["Missing required file: skill.py"]) ++
    (if child_exists (Directory p entries) "instructions.md" then []
     else ["Warning: Optional file not found: instructions.md"]) ++
    (if child_exists (Directory p entries) "config.yaml" then []
     else ["Warning: Optional file not found: config.yaml"]).
Proof.
  unfold validate_skill_structure. cbn [exists_ is_directory negb foldl].
  destruct (child_exists _ "skill.py"), (child_exists _ "instructions.md"),
    (child_exists _ "config.yaml"); done.
Qed.

(** X17: [validate_skill_structure] returns no issue exactly when the path
    is a directory that holds [skill.py], [instructions.md] and
    [config.yaml]. A path that is missing or no directory gets one issue. A
    directory that holds [skill.py] gets warnings only, one per optional
    file it lacks, so the list can be non-empty for a directory that
    discovery accepts. *)
Theorem validate_skill_structure_issues (skill_path : path) :
  (validate_skill_structure skill_path = []
   ↔ is_directory skill_path = true ∧
     child_exists skill_path "skill.py" = true ∧
     child_exists skill_path "instructions.md" = true ∧
     child_exists skill_path "config.yaml" = true) ∧
  (is_directory skill_path = false →
   length (validate_skill_structure skill_path) = 1) ∧
  (is_directory skill_path = true →
   ("Missing required file: skill.py" ∈ validate_skill_structure skill_path
    ↔ child_exists skill_path "skill.py" = false) ∧
   (child_exists skill_path "skill.py" = true →
    ∀ issue, issue ∈ validate_skill_structure skill_path →
             String.prefix "Warning: " issue = true)).
Proof.
  destruct skill_path as [p|p|p entries].
  - split_and!; [|done|done]. simpl. split; [done|]. by intros [? _].
  - split_and!; [|done|done]. simpl. split; [done|]. by intros [? _].
  - rewrite validate_directory. cbn [is_directory].
    destruct (child_exists _ "skill.py"), (child_exists _ "instructions.md"),
      (child_exists _ "config.yaml"); simpl; split_and!;
      try done; try (split; [done|by intros (_ & ? & ? & ?)]);
      intros _; split;
      try (split; [|done]; intros Hin;
           repeat (apply elem_of_cons in Hin as [Hin|Hin]; [done|]);
           by apply elem_of_nil in Hin);
      try (split; [done|]; intros _; apply list_elem_of_here);
      try done;
      intros _ issue Hin;
      repeat (apply elem_of_cons in Hin as [->|Hin]; [done|]);
      by apply elem_of_nil in Hin.
Qed.

Lemma validate_skill_structure_issues_witness :
  validate_skill_structure (Directory "skills/a" [Sample.entry "skill.py"
                                                    (Sample.file_of OtherObject)])
  = ["Warning: Optional file not found: instructions.md";
     "Warning: Optional file not found: config.yaml"] ∧
  length (validate_skill_structure (Missing "nowhere")) = 1.
Proof.
  destruct (validate_skill_structure_issues (Missing "nowhere"))
    as (_ & Hone & _).
  split; [done|]. by apply Hone.
Defined.

(** ** Configuration *)

Section config_lemmas.
Context {float : Type}.
Variable default_temperature : float.
Variable normalize : string → string.
Variable show : Config.value float → string.



End config_lemmas.



(** X19: [from_dict] undoes [to_dict]: for a configuration whose
    [skills_dir] is a [Path] and whose [state_mode] is one of the three
    modes, as every configuration the constructor returned is, rebuilding
    from its dictionary gives the same configuration back, provided [Path]
    of the string of a path is that path. *)
Theorem config_from_dict_to_dict {float : Type} (default_temperature : float)
    (normalize : string → string) (show : Config.value float → string)
    (self : Config.SkillSystemConfig float) (s : string) :
  Config.skills_dir float self = Config.VPath float s →
  normalize s = s →
  Config.in_valid_modes float (Config.state_mode float self) = true →
  Config.from_dict float default_temperature normalize show
    (Config.to_dict float show self) = Ok self.
Proof.
  intros Hdir Hnorm Hmode. destruct self. simpl in *. subst.
  unfold Config.from_dict, Config.new, Config.to_dict.
  cbn [Dict.keys fmap list_fmap fst]. simpl List.find.
  unfold Config.__post_init__. simpl. rewrite Hmode, Hnorm. done.
Qed.

Lemma config_from_dict_to_dict_witness :
  (Config.from_dict unit () id (λ _, "") []
   ≫= λ self, Config.from_dict unit () id (λ _, "")
                (Config.to_dict unit (λ _, "") self))
  = Config.from_dict unit () id (λ _, "") [].
Proof.
  destruct (Config.from_dict unit () id (λ _, "") []) as [self|e] eqn:Hself;
    [|done].
  vm_compute in Hself. injection Hself as <-.
  by apply (config_from_dict_to_dict () id (λ _, "") _ "./skills").
Defined.
